(** * Online shopping system (src/app.py): a shallow embedding and its properties

    The program is a Streamlit script: every user interaction re-runs the
    script from top to bottom against the session's cart.  The embedding
    follows the script:

    - Python [str] values are modelled by their UTF-8 byte strings
      ([String.string]).  The two patterns of the validators only contain
      ASCII classes, so a full match on code points and a full match on the
      UTF-8 bytes coincide (every byte of a non-ASCII code point is >= 128
      and is rejected by both).
    - Python [int] is [Z]; Python [float] is IEEE 754 binary64, modelled by
      [spec_float] with the operations of [SpecFloat] at precision 53.
    - the cart is a Python [dict] (insertion ordered): an association list
      with the dict operations written out, [KeyError] included.
    - the session cart, the files on disk and what the page shows are the
      components of an explicit [World] threaded through a small
      state-and-exception monad.
    - the file system can refuse the invoice's file: how it answers the
      [open] and the write of a run is an input of that run, as the widget
      values and the clock are.  *)

From Stdlib Require Import ZArith String Ascii List Bool Lia DecimalString.
From Stdlib Require Import Floats.SpecFloat.
From stdpp Require Import gmap strings.

Import ListNotations.
Local Open Scope string_scope.
Local Open Scope Z_scope.

(** ** Exceptions and results *)

Inductive exn : Type :=
| ProductNotFoundError (msg : string)
| InvalidQuantityError (msg : string)
| ValidationError (msg : string)
| KeyError (key : string)
| OverflowError (msg : string)
| FileNotFoundError (path : string)
| OSError (msg : string)
| ValueError (msg : string)
| UnicodeEncodeError (msg : string).

Inductive result (A : Type) : Type :=
| Ok (a : A)
| Raise (e : exn).
Arguments Ok {A} a.
Arguments Raise {A} e.

(** ** Regular expressions: the fragment of [re] used by the validators *)

Module Re.

(** A character class is a list of inclusive ranges, as in [[A-Za-z ]]. *)
Definition charclass := list (ascii * ascii).

Inductive regex : Type :=
| Void
| Eps
| Class (cs : charclass)
| Cat (r1 r2 : regex)
| Alt (r1 r2 : regex)
| Star (r : regex).

Definition Lit (c : ascii) : regex := Class [(c, c)].
(** [r?], [r+] and [r{n}] *)
Definition Opt (r : regex) : regex := Alt Eps r.
Definition Plus (r : regex) : regex := Cat r (Star r).
Fixpoint Rep (n : nat) (r : regex) : regex :=
  match n with
  | O => Eps
  | S n' => Cat r (Rep n' r)
  end.

Definition in_range (c : ascii) (rg : ascii * ascii) : bool :=
  ((nat_of_ascii (fst rg) <=? nat_of_ascii c)%nat
   && (nat_of_ascii c <=? nat_of_ascii (snd rg))%nat)%bool.

Definition in_class (c : ascii) (cs : charclass) : bool :=
  existsb (in_range c) cs.

(** The language of a pattern: what [re.fullmatch] decides. *)
Inductive matches : regex -> string -> Prop :=
| m_eps : matches Eps ""
| m_class cs c : in_class c cs = true -> matches (Class cs) (String c "")
| m_cat r1 r2 s1 s2 :
    matches r1 s1 -> matches r2 s2 -> matches (Cat r1 r2) (s1 ++ s2)
| m_alt_l r1 r2 s : matches r1 s -> matches (Alt r1 r2) s
| m_alt_r r1 r2 s : matches r2 s -> matches (Alt r1 r2) s
| m_star_nil r : matches (Star r) ""
| m_star_cons r s1 s2 :
    matches r s1 -> matches (Star r) s2 -> matches (Star r) (s1 ++ s2).

(** The matcher, by derivatives. *)
Fixpoint nullable (r : regex) : bool :=
  match r with
  | Void => false
  | Eps => true
  | Class _ => false
  | Cat r1 r2 => nullable r1 && nullable r2
  | Alt r1 r2 => nullable r1 || nullable r2
  | Star _ => true
  end.

Fixpoint deriv (c : ascii) (r : regex) : regex :=
  match r with
  | Void => Void
  | Eps => Void
  | Class cs => if in_class c cs then Eps else Void
  | Cat r1 r2 =>
      if nullable r1
      then Alt (Cat (deriv c r1) r2) (deriv c r2)
      else Cat (deriv c r1) r2
  | Alt r1 r2 => Alt (deriv c r1) (deriv c r2)
  | Star r1 => Cat (deriv c r1) (Star r1)
  end.

Fixpoint fullmatch (r : regex) (s : string) : bool :=
  match s with
  | EmptyString => nullable r
  | String c s' => fullmatch (deriv c r) s'
  end.

End Re.

(** ** ShoppingSystem: the validators *)

Definition name_pattern : Re.regex :=
  Re.Plus (Re.Class [("A"%char, "Z"%char); ("a"%char, "z"%char); (" "%char, " "%char)]).

Definition phone_pattern : Re.regex :=
  Re.Cat (Re.Opt (Re.Alt (Re.Lit "0") (Re.Cat (Re.Lit "9") (Re.Lit "1"))))
         (Re.Rep 10 (Re.Class [("0"%char, "9"%char)])).

Definition validate_name (name : string) : result bool :=
  if negb (Re.fullmatch name_pattern name)
  then Raise (ValidationError "Customer name must contain only alphabets and spaces.")
  else Ok true.

Definition validate_phone (phone : string) : result bool :=
  if negb (Re.fullmatch phone_pattern phone)
  then Raise (ValidationError "Phone number must be 10 digits (0 or 91 optional).")
  else Ok true.

(** ** Python numbers *)

Definition float : Type := spec_float.
Definition prec : Z := 53.
Definition emax : Z := 1024.

(** [float(n)] for an [int]: round to nearest even; [OverflowError] when the
    rounded value is not finite. *)
Definition float_of_int (n : Z) : result float :=
  match binary_normalize prec emax n 0 false with
  | S754_finite s m e => Ok (S754_finite s m e)
  | S754_zero s => Ok (S754_zero s)
  | _ => Raise (OverflowError "int too large to convert to float")
  end.

(** [n * x] and [n + x] for an [int] n and a [float] x. *)
Definition int_mul_float (n : Z) (x : float) : result float :=
  match float_of_int n with
  | Ok f => Ok (SFmul prec emax f x)
  | Raise e => Raise e
  end.

Definition int_add_float (n : Z) (x : float) : result float :=
  match float_of_int n with
  | Ok f => Ok (SFadd prec emax f x)
  | Raise e => Raise e
  end.

(** The literal [0.10]: the double nearest to one tenth,
    7205759403792794 * 2^-56. *)
Definition gst_rate : float := S754_finite false 7205759403792794 (-56).

(** [str(n)] for an [int], as an f-string renders it.  CPython (3.11 and
    later) refuses to convert an int of more than 4300 digits and raises
    ValueError; [str_of_int] is the conversion below that limit, which
    [printable] states. *)
Definition str_of_int (n : Z) : string := NilZero.string_of_int (Z.to_int n).

Definition nl : string := String (ascii_of_nat 10) "".

(** ["sep".join(parts)] *)
Fixpoint join (sep : string) (parts : list string) : string :=
  match parts with
  | [] => ""
  | [p] => p
  | p :: rest => p ++ sep ++ join sep rest
  end.

(** [not s.strip()]: every code point of [s] is white space
    ([str.isspace]), read on the UTF-8 bytes. *)
Definition ascii_space (c : ascii) : bool :=
  let n := nat_of_ascii c in
  (((9 <=? n) && (n <=? 13)) || ((28 <=? n) && (n <=? 32)))%nat.

Fixpoint strip_is_empty (s : string) : bool :=
  match s with
  | EmptyString => true
  | String c r =>
      if ascii_space c then strip_is_empty r
      else
        match nat_of_ascii c, r with
        | 194%nat, String d r1 =>
            (* U+0085, U+00A0 *)
            ((nat_of_ascii d =? 133) || (nat_of_ascii d =? 160))%nat
            && strip_is_empty r1
        | 225%nat, String d1 (String d2 r2) =>
            (* U+1680 *)
            ((nat_of_ascii d1 =? 154) && (nat_of_ascii d2 =? 128))%nat
            && strip_is_empty r2
        | 226%nat, String d1 (String d2 r2) =>
            (* U+2000..U+200A, U+2028, U+2029, U+202F, U+205F *)
            let n1 := nat_of_ascii d1 in
            let n2 := nat_of_ascii d2 in
            (((n1 =? 128)
              && (((128 <=? n2) && (n2 <=? 138)) || (n2 =? 168) || (n2 =? 169) || (n2 =? 175)))
             || ((n1 =? 129) && (n2 =? 159)))%nat
            && strip_is_empty r2
        | 227%nat, String d1 (String d2 r2) =>
            (* U+3000 *)
            ((nat_of_ascii d1 =? 128) && (nat_of_ascii d2 =? 128))%nat
            && strip_is_empty r2
        | _, _ => false
        end
  end.

(** ** Python dicts with [str] keys, in insertion order *)

Module Dict.
Section Ops.
Context {V : Type}.

(** [k in d] *)
Fixpoint contains (k : string) (d : list (string * V)) : bool :=
  match d with
  | [] => false
  | (k', _) :: d' => if String.eqb k k' then true else contains k d'
  end.

(** [d[k]] *)
Fixpoint getitem (k : string) (d : list (string * V)) : result V :=
  match d with
  | [] => Raise (KeyError k)
  | (k', v) :: d' => if String.eqb k k' then Ok v else getitem k d'
  end.

(** [d[k] = v]: an existing key keeps its position, a new key goes last. *)
Fixpoint setitem (k : string) (v : V) (d : list (string * V)) : list (string * V) :=
  match d with
  | [] => [(k, v)]
  | (k', v') :: d' =>
      if String.eqb k k' then (k', v) :: d' else (k', v') :: setitem k v d'
  end.

(** [del d[k]] *)
Fixpoint delitem (k : string) (d : list (string * V)) : result (list (string * V)) :=
  match d with
  | [] => Raise (KeyError k)
  | (k', v') :: d' =>
      if String.eqb k k' then Ok d'
      else match delitem k d' with
           | Ok d'' => Ok ((k', v') :: d'')
           | Raise e => Raise e
           end
  end.

(** [list(d.keys())] *)
Definition keys (d : list (string * V)) : list string := map fst d.

(** [bool(d)] *)
Definition truth (d : list (string * V)) : bool :=
  match d with [] => false | _ => true end.

(** the number of entries stored under [k] *)
Fixpoint count (k : string) (d : list (string * V)) : nat :=
  match d with
  | [] => O
  | (k', _) :: d' => ((if String.eqb k k' then 1 else 0) + count k d')%nat
  end.
End Ops.
End Dict.

(** ** The catalog and the cart *)

(** [ShoppingSystem.__init__]: [self.products] *)
Definition products : list (string * Z) :=
  [ ("Laptop", 50000); ("Headphones", 1500); ("SamsungS22", 60000);
    ("Shirt", 800); ("Pant", 1200); ("Apple", 80); ("Banana", 40);
    ("Papaya", 60) ].

(** A cart entry: [{"price": ..., "qty": ...}] *)
Record CartLine : Type := { price : Z; qty : Z }.

Definition Cart : Type := list (string * CartLine).

(** ** The world of a script run *)

Inductive Output : Type :=
| st_title (s : string)
| st_header (s : string)
| st_subheader (s : string)
| st_markdown (s : string)
| st_write (s : string)
| st_info (s : string)
| st_success (s : string)
| st_error (s : string)
| st_error_exn (e : exn)
| st_download_button (label data file_name : string).

Record World : Type := {
  cart : Cart;                    (* st.session_state.cart *)
  files : gmap string string;     (* the files on disk, by path *)
  display : list Output           (* what this run has put on the page *)
}.

Definition M (A : Type) : Type := World -> result A * World.

Definition ret {A} (a : A) : M A := fun w => (Ok a, w).
Definition raise {A} (e : exn) : M A := fun w => (Raise e, w).
Definition bind {A B} (c : M A) (k : A -> M B) : M B :=
  fun w => match c w with
           | (Ok a, w') => k a w'
           | (Raise e, w') => (Raise e, w')
           end.
Definition lift {A} (r : result A) : M A := fun w => (r, w).

Notation "x <- c ;; k" := (bind c (fun x => k))
  (at level 100, c at next level, right associativity).
Notation "c ;; k" := (bind c (fun _ => k))
  (at level 100, right associativity).

Definition get_cart : M Cart := fun w => (Ok (cart w), w).
Definition set_cart (c : Cart) : M unit :=
  fun w => (Ok tt, {| cart := c; files := files w; display := display w |}).
Definition show (o : Output) : M unit :=
  fun w => (Ok tt, {| cart := cart w; files := files w; display := app (display w) [o] |}).

(** What the file system does with
    [with open(path, "w") as f: f.write(text)].  The [open] can fail (a
    directory of the path is missing, the name is too long or holds a NUL,
    permissions): the exception is raised and no file is touched.  Once the
    file is open it exists and is empty; the write can still fail (the text
    cannot be encoded in the default encoding, the disk is full): the
    exception is raised and the file is left with [partial], what had been
    written.  Otherwise the file holds the text. *)
Inductive WriteOutcome : Type :=
| Written
| OpenFails (e : exn)
| WriteFails (e : exn) (partial : string).

(** The answer of the file system to the write of [text] to [path]. *)
Definition Disk : Type := string -> string -> WriteOutcome.

(** [with open(path, "w") as f: f.write(text)].  The files are a map from
    paths to contents; directories and permissions are in [disk]. *)
Definition write_file (disk : Disk) (path text : string) : M unit :=
  fun w => match disk path text with
           | Written =>
               (Ok tt, {| cart := cart w; files := <[path := text]> (files w);
                          display := display w |})
           | OpenFails e => (Raise e, w)
           | WriteFails e partial =>
               (Raise e, {| cart := cart w; files := <[path := partial]> (files w);
                            display := display w |})
           end.

(** [with open(path, "rb") as file: ...] *)
Definition read_file (path : string) : M string :=
  fun w => match files w !! path with
           | Some data => (Ok data, w)
           | None => (Raise (FileNotFoundError path), w)
           end.

(** [try: body  except Exception as e: st.error(e)] *)
Definition try_except (body : M unit) : M unit :=
  fun w => match body w with
           | (Ok _, w') => (Ok tt, w')
           | (Raise e, w') => show (st_error_exn e) w'
           end.

(** [for x in xs: body x] *)
Fixpoint for_each {A} (xs : list A) (body : A -> M unit) : M unit :=
  match xs with
  | [] => ret tt
  | x :: xs' => body x ;; for_each xs' body
  end.

Definition when (b : bool) (c : M unit) : M unit := if b then c else ret tt.

(** ** The script *)

Inductive Button : Type :=
| AddToCart | UpdateQuantity | RemoveItem | ClearCart | PlaceOrder.

Definition Button_eqb (a b : Button) : bool :=
  match a, b with
  | AddToCart, AddToCart | UpdateQuantity, UpdateQuantity
  | RemoveItem, RemoveItem | ClearCart, ClearCart | PlaceOrder, PlaceOrder => true
  | _, _ => false
  end.

(** What one run of the script is handed: the values of the select boxes,
    number inputs and text inputs, the button that was pressed (at most one
    per run), the clock, and the file system's answer to the write of the
    invoice.  The widgets themselves
    (and [st.set_page_config], [st.columns]) put no [Output] on the page of
    the model. *)
Record Inputs : Type := {
  product : string;           (* st.selectbox("Select Product", ...) *)
  quantity : Z;               (* st.number_input("Enter Quantity", min_value=1, ...) *)
  selected_item : string;     (* st.selectbox("Choose item", item_list) *)
  new_qty : Z;                (* st.number_input("New Quantity", min_value=1, ...) *)
  customer_name : string;
  phone : string;
  filename : string;
  clicked : option Button;    (* the st.button that returns True in this run *)
  now : string;               (* datetime.now().strftime('%Y-%m-%d %H:%M:%S') *)
  disk : Disk                 (* what open(filename + ".txt", "w") and f.write do *)
}.

(** [st.button(label)] *)
Definition st_button (b : Button) (inp : Inputs) : bool :=
  match clicked inp with
  | Some b' => Button_eqb b b'
  | None => false
  end.

(** The values the widgets can deliver against a cart: a select box returns
    one of its options and a number input with [min_value=1] a number that
    is at least 1. *)
Definition widgets_ok (c : Cart) (inp : Inputs) : bool :=
  Dict.contains (product inp) products
  && (1 <=? quantity inp)
  && (Dict.contains (selected_item inp) c || negb (Dict.truth c))
  && (1 <=? new_qty inp).

(** The local variables of [generate_invoice] when it reaches the file
    write. *)
Record InvoiceLocals : Type := {
  total : Z;
  gst_amount : float;
  grand_total : float;
  invoice_text : string
}.

Section Script.

(** [str(x)] for a [float], as an f-string renders it; the digits Python
    prints are not modelled. *)
Variable float_repr : float -> string.

(** One turn of the loop over [cart.items()], on the locals
    [(total, invoice)]. *)
Definition invoice_item (acc : Z * list string) (entry : string * CartLine)
  : Z * list string :=
  let '(total, invoice) := acc in
  let '(item, d) := entry in
  let cost := price d * qty d in
  (total + cost,
   app invoice [item ++ " - " ++ str_of_int (qty d) ++ " pcs - ₹" ++ str_of_int cost]).

(** [generate_invoice], lines 41 to 65: totals and text. *)
Definition invoice_locals (now customer_name phone : string) (cart : Cart)
  : result InvoiceLocals :=
  let invoice :=
    [ "********** INVOICE **********" ++ nl;
      "Customer Name: " ++ customer_name;
      "Phone Number: " ++ phone;
      "Date: " ++ now ++ nl;
      "Items Purchased:" ] in
  let '(total, invoice) := fold_left invoice_item cart (0, invoice) in
  match int_mul_float total gst_rate with
  | Raise e => Raise e
  | Ok gst_amount =>
      match int_add_float total gst_amount with
      | Raise e => Raise e
      | Ok grand_total =>
          let invoice :=
            app invoice
             [ nl ++ "Subtotal: ₹" ++ str_of_int total;
               "GST (10%): ₹" ++ float_repr gst_amount;
               "Total Amount: ₹" ++ float_repr grand_total;
               nl ++ "Thank you for shopping with us!" ] in
          Ok {| total := total; gst_amount := gst_amount;
                grand_total := grand_total;
                invoice_text := join nl invoice |}
      end
  end.

(** [ShoppingSystem.generate_invoice] *)
Definition generate_invoice (disk : Disk) (now filename customer_name phone : string)
    (cart : Cart) : M string :=
  locals <- lift (invoice_locals now customer_name phone cart) ;;
  write_file disk (filename ++ ".txt") (invoice_text locals) ;;
  ret (filename ++ ".txt").

(** The body of the [try] under "Add to Cart". *)
Definition add_to_cart (product : string) (quantity : Z) : M unit :=
  when (negb (Dict.contains product products))
       (raise (ProductNotFoundError "Product not available!")) ;;
  price0 <- lift (Dict.getitem product products) ;;
  c <- get_cart ;;
  (if Dict.contains product c
   then d <- lift (Dict.getitem product c) ;;
        set_cart (Dict.setitem product {| price := price d; qty := qty d + quantity |} c)
   else set_cart (Dict.setitem product {| price := price0; qty := quantity |} c)) ;;
  show (st_success ("Added " ++ str_of_int quantity ++ " x " ++ product ++ " to cart.")).

(** The body of the [try] under "Update Quantity". *)
Definition update_quantity (selected_item : string) (new_qty : Z) : M unit :=
  c <- get_cart ;;
  d <- lift (Dict.getitem selected_item c) ;;
  set_cart (Dict.setitem selected_item {| price := price d; qty := new_qty |} c) ;;
  show (st_success ("Updated " ++ selected_item ++ " quantity to "
                    ++ str_of_int new_qty ++ ".")).

(** The body of the [try] under "Remove Item". *)
Definition remove_item (selected_item : string) : M unit :=
  c <- get_cart ;;
  c' <- lift (Dict.delitem selected_item c) ;;
  set_cart c' ;;
  show (st_success ("Removed " ++ selected_item ++ " from cart.")).

(** "Clear Cart" *)
Definition clear_cart : M unit :=
  set_cart [] ;;
  show (st_success "Cart cleared successfully!").

(** The body of the [try] under "Place Order". *)
Definition place_order (disk : Disk) (now customer_name phone filename : string)
  : M unit :=
  c <- get_cart ;;
  if negb (Dict.truth c)
  then show (st_error "Cart is empty! Add items before placing order.")
  else
    (lift (validate_name customer_name) ;;
     lift (validate_phone phone) ;;
     if strip_is_empty filename
     then show (st_error "File name cannot be empty!")
     else
       (file_path <- generate_invoice disk now filename customer_name phone c ;;
        show (st_success ("Order placed! Invoice generated: " ++ file_path)) ;;
        file <- read_file file_path ;;
        show (st_download_button "Download Invoice" file file_path) ;;
        set_cart [])).

(** One run of the script, top to bottom. *)
Definition script (inp : Inputs) : M unit :=
  show (st_title "🛒 Online Shopping System - Streamlit Version") ;;
  show (st_header "Available Products") ;;
  for_each products (fun entry =>
    show (st_write ("**" ++ fst entry ++ "** - ₹" ++ str_of_int (snd entry)))) ;;
  show (st_markdown "---") ;;
  show (st_subheader "Add Product to Cart") ;;
  when (st_button AddToCart inp)
       (try_except (add_to_cart (product inp) (quantity inp))) ;;
  show (st_markdown "---") ;;
  show (st_subheader "🛒 Your Cart") ;;
  c <- get_cart ;;
  (if negb (Dict.truth c)
   then show (st_info "Cart is empty.")
   else for_each c (fun entry =>
          let d := snd entry in
          show (st_write (fst entry ++ " - " ++ str_of_int (qty d) ++ " pcs - ₹"
                          ++ str_of_int (price d * qty d))))) ;;
  show (st_markdown "### Update or Remove Product") ;;
  c <- get_cart ;;
  when (Dict.truth c)
       (when (st_button UpdateQuantity inp)
             (try_except (update_quantity (selected_item inp) (new_qty inp))) ;;
        when (st_button RemoveItem inp)
             (try_except (remove_item (selected_item inp)))) ;;
  show (st_markdown "---") ;;
  when (st_button ClearCart inp) clear_cart ;;
  show (st_markdown "---") ;;
  show (st_header "📦 Place Order") ;;
  when (st_button PlaceOrder inp)
       (try_except (place_order (disk inp) (now inp) (customer_name inp) (phone inp)
                                (filename inp))).

(** A rerun starts from an empty page and keeps the session's cart and
    the files. *)
Definition rerun (inp : Inputs) (w : World) : World :=
  snd (script inp {| cart := cart w; files := files w; display := [] |}).

(** A new session: [st.session_state.cart = {}]. *)
Definition new_session : World := {| cart := []; files := ∅; display := [] |}.

(** The worlds a session can be in: any number of reruns from a new
    session. *)
Inductive reachable : World -> Prop :=
| reach_new : reachable new_session
| reach_rerun w inp : reachable w -> reachable (rerun inp w).

End Script.

(** ** Vocabulary of the properties *)

Definition is_letter (c : ascii) : bool :=
  let n := nat_of_ascii c in
  (((65 <=? n) && (n <=? 90)) || ((97 <=? n) && (n <=? 122)))%nat.

Definition is_digit (c : ascii) : bool :=
  let n := nat_of_ascii c in
  ((48 <=? n) && (n <=? 57))%nat.

Definition name_char (c : ascii) : bool := is_letter c || Ascii.eqb c " ".

Definition all_chars (p : ascii -> bool) (s : string) : bool :=
  forallb p (list_ascii_of_string s).

(** The amounts of an invoice as the specification words them: the cost of a
    line is unit price times quantity, the subtotal is the sum of the line
    costs, the GST amount is subtotal times 0.10 and the grand total is
    subtotal plus GST amount. *)
Definition line_cost (d : CartLine) : Z := price d * qty d.

Definition subtotal_spec (c : Cart) : Z :=
  fold_right Z.add 0 (map (fun entry => line_cost (snd entry)) c).

Definition amounts_spec (c : Cart) : result (Z * float * float) :=
  let subtotal := subtotal_spec c in
  match int_mul_float subtotal gst_rate with
  | Raise e => Raise e
  | Ok gst =>
      match int_add_float subtotal gst with
      | Raise e => Raise e
      | Ok grand => Ok (subtotal, gst, grand)
      end
  end.

(** The amounts [generate_invoice] has computed. *)
Definition amounts (r : result InvoiceLocals) : result (Z * float * float) :=
  match r with
  | Ok l => Ok (total l, gst_amount l, grand_total l)
  | Raise e => Raise e
  end.

(** The cart {Apple: 3 at 80, Banana: 2 at 40}. *)
Definition apple_banana : Cart :=
  [ ("Apple", {| price := 80; qty := 3 |});
    ("Banana", {| price := 40; qty := 2 |}) ].

(** The doubles 32.0 = 2^52 * 2^-47 and 352.0 = 11 * 2^49 * 2^-44. *)
Definition float_32 : float := S754_finite false 4503599627370496 (-47).
Definition float_352 : float := S754_finite false 6192449487634432 (-44).

(** Runs of the script, one after the other. *)
Definition reruns (float_repr : float -> string) (inps : list Inputs) (w : World) : World :=
  fold_left (fun w inp => rerun float_repr inp w) inps w.

(** The sum of the quantities entered for product [p] in a series of runs. *)
Definition added_for (p : string) (inps : list Inputs) : Z :=
  fold_right Z.add 0
    (map quantity (List.filter (fun inp => String.eqb p (product inp)) inps)).

(** Every line of the cart carries the catalog price of its product. *)
Definition catalog_priced (c : Cart) : Prop :=
  forall item d, In (item, d) c -> Dict.getitem item products = Ok (price d).

(** The quantity stored for [p], 0 when the cart has no such line. *)
Definition qty_of (p : string) (c : Cart) : Z :=
  match Dict.getitem p c with
  | Ok d => qty d
  | Raise _ => 0
  end.

(** ** What a run does to the session: the script as a transition function *)

(** The part of the world that outlives a run: the cart and the files. *)
Definition Store : Type := (Cart * gmap string string)%type.

Definition store (w : World) : Store := (cart w, files w).

Definition cart_add (p : string) (q : Z) (c : Cart) : Cart :=
  match Dict.getitem p products with
  | Raise _ => c
  | Ok price0 =>
      match Dict.getitem p c with
      | Ok d => Dict.setitem p {| price := price d; qty := qty d + q |} c
      | Raise _ => Dict.setitem p {| price := price0; qty := q |} c
      end
  end.

Definition cart_update (item : string) (q : Z) (c : Cart) : Cart :=
  match Dict.getitem item c with
  | Ok d => Dict.setitem item {| price := price d; qty := q |} c
  | Raise _ => c
  end.

Definition cart_remove (item : string) (c : Cart) : Cart :=
  match Dict.delitem item c with
  | Ok c' => c'
  | Raise _ => c
  end.

Definition order_store (float_repr : float -> string) (inp : Inputs) (s : Store) : Store :=
  if negb (Dict.truth (fst s)) then s
  else
    match validate_name (customer_name inp), validate_phone (phone inp) with
    | Ok _, Ok _ =>
        if strip_is_empty (filename inp) then s
        else
          match invoice_locals float_repr (now inp) (customer_name inp) (phone inp) (fst s) with
          | Ok l =>
              match disk inp (filename inp ++ ".txt") (invoice_text l) with
              | Written => ([], <[(filename inp ++ ".txt") := invoice_text l]> (snd s))
              | OpenFails _ => s
              | WriteFails _ partial =>
                  (fst s, <[(filename inp ++ ".txt") := partial]> (snd s))
              end
          | Raise _ => s
          end
    | _, _ => s
    end.

Definition step_store (float_repr : float -> string) (inp : Inputs) (s : Store) : Store :=
  match clicked inp with
  | None => s
  | Some AddToCart => (cart_add (product inp) (quantity inp) (fst s), snd s)
  | Some UpdateQuantity => (cart_update (selected_item inp) (new_qty inp) (fst s), snd s)
  | Some RemoveItem => (cart_remove (selected_item inp) (fst s), snd s)
  | Some ClearCart => ([], snd s)
  | Some PlaceOrder => order_store float_repr inp s
  end.

(** A computation that returns normally and acts on the store as [f]. *)
Definition eff (m : M unit) (f : Store -> Store) : Prop :=
  forall w, exists d,
    m w = (Ok tt, {| cart := fst (f (store w)); files := snd (f (store w)); display := d |}).

(** ** Inputs and worlds used in the statements *)

(** A file system that accepts every write, and one in which no file can be
    opened for writing, as when the directory of the path is missing. *)
Definition accepting_disk : Disk := fun _ _ => Written.


(** The inputs of a run in which button [b] is pressed. *)
Definition click (b : Button) (inp : Inputs) : Inputs :=
  {| product := product inp; quantity := quantity inp;
     selected_item := selected_item inp; new_qty := new_qty inp;
     customer_name := customer_name inp; phone := phone inp;
     filename := filename inp; clicked := Some b; now := now inp; disk := disk inp |}.

Definition sample_inputs : Inputs :=
  {| product := "Apple"; quantity := 3; selected_item := "Apple"; new_qty := 5;
     customer_name := "John Smith"; phone := "9876543210"; filename := "invoice";
     clicked := None; now := "2024-01-01 10:00:00"; disk := accepting_disk |}.

(** A session whose cart holds three apples. *)
Definition apple_session : World :=
  {| cart := [("Apple", {| price := 80; qty := 3 |})]; files := ∅; display := [] |}.

(** A rendering of floats for the concrete runs below; the statements hold
    for every rendering. *)
Definition sample_repr (x : float) : string :=
  match x with
  | S754_finite s m e =>
      (if s then "-" else "") ++ str_of_int (Zpos m) ++ "*2^" ++ str_of_int e
  | S754_zero s => if s then "-0.0" else "0.0"
  | S754_infinity s => if s then "-inf" else "inf"
  | S754_nan => "nan"
  end.

(** Two sentences of the specification, as it words them, for the script's
    handlers. *)

(** "add with quantity <= 0 always fails with InvalidQuantity and leaves the
    cart unchanged" *)
Definition spec_add_rejects (p : string) (q : Z) (w : World) : Prop :=
  q <= 0 ->
  exists msg,
    fst (add_to_cart p q w) = Raise (InvalidQuantityError msg)
    /\ cart (snd (add_to_cart p q w)) = cart w.

(** "updateQuantity requires an existing line (ProductNotFoundError if
    absent) and newQuantity >= 1 (InvalidQuantityError otherwise); replaces
    the line's quantity" *)
Definition spec_update_quantity (item : string) (q : Z) (w : World) : Prop :=
  (Dict.contains item (cart w) = false ->
   exists msg, fst (update_quantity item q w) = Raise (ProductNotFoundError msg))
  /\ (q < 1 ->
      exists msg, fst (update_quantity item q w) = Raise (InvalidQuantityError msg))
  /\ (Dict.contains item (cart w) = true -> 1 <= q ->
      fst (update_quantity item q w) = Ok tt
      /\ qty_of item (cart (snd (update_quantity item q w))) = q).

(** No key is stored twice. *)
Definition unique_keys (c : Cart) : Prop := forall k, (Dict.count k c <= 1)%nat.

(** The cart after a series of additions. *)
Definition adds (inps : list Inputs) (c : Cart) : Cart :=
  fold_left (fun c inp => cart_add (product inp) (quantity inp) c) inps c.

(** The inputs of a run in which [q] units of [p] are added. *)
Definition add_click (p : string) (q : Z) : Inputs :=
  click AddToCart
    {| product := p; quantity := q; selected_item := ""; new_qty := 1;
       customer_name := ""; phone := ""; filename := ""; clicked := None; now := "";
       disk := accepting_disk |}.

(** Nothing on the page reports an order: no success message and no
    download button. *)
Definition no_order_shown (page : list Output) : Prop :=
  Forall (fun o => match o with
                   | st_success _ | st_download_button _ _ _ => False
                   | _ => True
                   end) page.

(** ** Further vocabulary: removal, quantities and the page *)

(** The inputs of a run in which the line of [item] is removed, and of a
    run in which its quantity is set to [q]. *)
Definition remove_click (item : string) : Inputs :=
  click RemoveItem
    {| product := ""; quantity := 1; selected_item := item; new_qty := 1;
       customer_name := ""; phone := ""; filename := ""; clicked := None; now := "";
       disk := accepting_disk |}.

Definition update_click (item : string) (q : Z) : Inputs :=
  click UpdateQuantity
    {| product := ""; quantity := 1; selected_item := item; new_qty := q;
       customer_name := ""; phone := ""; filename := ""; clicked := None; now := "";
       disk := accepting_disk |}.

(** Every line holds a quantity of at least 1. *)
Definition quantities_positive (c : Cart) : Prop :=
  forall item d, In (item, d) c -> 1 <= qty d.

(** The worlds a session reaches when the inputs of every run are values
    the widgets can deliver against the cart the run starts from. *)
Inductive widget_reachable (float_repr : float -> string) : World -> Prop :=
| wreach_new : widget_reachable float_repr new_session
| wreach_rerun w inp :
    widget_reachable float_repr w ->
    widgets_ok (cart w) inp = true ->
    widget_reachable float_repr (rerun float_repr inp w).

(** The invoice's line for one cart entry. *)
Definition invoice_line (entry : string * CartLine) : string :=
  fst entry ++ " - " ++ str_of_int (qty (snd entry)) ++ " pcs - ₹"
  ++ str_of_int (line_cost (snd entry)).

(** The listing of one catalog product on the page. *)
Definition product_line (entry : string * Z) : Output :=
  st_write ("**" ++ fst entry ++ "** - ₹" ++ str_of_int (snd entry)).

(** What every page starts with: the title, the catalog and the heading of
    the "Add Product to Cart" part. *)
Definition page_head : list Output :=
  app [st_title "🛒 Online Shopping System - Streamlit Version";
       st_header "Available Products"]
      (app (map product_line products)
           [st_markdown "---"; st_subheader "Add Product to Cart"]).

(** A computation that only adds to the page, and one whose additions start
    with [pre]. *)
Definition grows {A : Type} (m : M A) : Prop :=
  forall w, exists d, display (snd (m w)) = app (display w) d.

Definition starts_with {A : Type} (m : M A) (pre : list Output) : Prop :=
  forall w, exists d, display (snd (m w)) = app (display w) (app pre d).

(** The line of the "Your Cart" part of the page for one cart entry. *)
Definition cart_line (entry : string * CartLine) : Output :=
  st_write (fst entry ++ " - " ++ str_of_int (qty (snd entry)) ++ " pcs - ₹"
            ++ str_of_int (price (snd entry) * qty (snd entry))).

(** The cart when the run reaches the "Your Cart" part: only "Add to Cart"
    is handled before it. *)
Definition cart_shown (inp : Inputs) (c : Cart) : Cart :=
  if st_button AddToCart inp then cart_add (product inp) (quantity inp) c else c.

(** What the "Add to Cart" handler puts on the page: nothing when the
    button is not pressed, and otherwise its success message or the error
    it raised. *)
Definition add_shown (inp : Inputs) : list Output :=
  if st_button AddToCart inp
  then [ if Dict.contains (product inp) products
         then st_success ("Added " ++ str_of_int (quantity inp) ++ " x " ++ product inp
                          ++ " to cart.")
         else st_error_exn (ProductNotFoundError "Product not available!") ]
  else [].

(** The "Your Cart" part of the page for a cart: "Cart is empty.", or one
    line per entry in the cart's order. *)
Definition cart_listing (c : Cart) : list Output :=
  match c with
  | [] => [st_info "Cart is empty."]
  | _ :: _ => map cart_line c
  end.

(** An int that [str] converts: fewer than 4301 digits. *)
Definition printable (n : Z) : Prop := Z.abs n < 10 ^ 4300.

(** ** The matcher decides the language of the pattern *)

Module ReFacts.
Import Re.
#[local] Arguments String.append (s1 s2)%_string_scope : simpl nomatch.

Lemma append_empty_r (s : string) : s ++ "" = s.
Proof. induction s as [|c s IH]; simpl; [reflexivity | now rewrite IH]. Qed.

Lemma append_is_empty (s1 s2 : string) : s1 ++ s2 = "" -> s1 = "" /\ s2 = "".
Proof. destruct s1; simpl; [auto | discriminate]. Qed.

Lemma append_is_cons (s1 s2 s : string) (c : ascii) :
  s1 ++ s2 = String c s ->
  (s1 = "" /\ s2 = String c s) \/ (exists s1', s1 = String c s1' /\ s = s1' ++ s2).
Proof.
  destruct s1 as [|c1 s1]; simpl; intros H.
  - left; auto.
  - injection H as -> <-. right; eauto.
Qed.

Lemma cat_inv (r1 r2 : regex) (s : string) :
  matches (Cat r1 r2) s ->
  exists s1 s2, s = s1 ++ s2 /\ matches r1 s1 /\ matches r2 s2.
Proof. intros H; inversion H; subst; eauto. Qed.

Lemma alt_inv (r1 r2 : regex) (s : string) :
  matches (Alt r1 r2) s -> matches r1 s \/ matches r2 s.
Proof. intros H; inversion H; subst; auto. Qed.

Lemma eps_inv (s : string) : matches Eps s -> s = "".
Proof. intros H; inversion H; reflexivity. Qed.

Lemma class_matches (cs : charclass) (s : string) :
  matches (Class cs) s <-> exists c, s = String c "" /\ in_class c cs = true.
Proof.
  split.
  - intros H; inversion H; subst; eauto.
  - intros [c [-> H]]. now constructor.
Qed.

Lemma matches_cons (r1 r2 : regex) (c : ascii) (s1 s2 : string) :
  matches r1 (String c s1) -> matches r2 s2 ->
  matches (Cat r1 r2) (String c (s1 ++ s2)).
Proof. intros M1 M2. apply (m_cat _ _ _ _ M1 M2). Qed.

Lemma nullable_matches (r : regex) : nullable r = true <-> matches r "".
Proof.
  induction r as [| |cs|r1 IH1 r2 IH2|r1 IH1 r2 IH2|r1 IH1]; simpl; split; intros H;
    try discriminate; try (now constructor).
  - inversion H.
  - apply class_matches in H as [c [E _]]. discriminate.
  - apply andb_true_iff in H as [H1 H2].
    apply (m_cat _ _ "" ""); [apply IH1 | apply IH2]; assumption.
  - apply cat_inv in H as [s1 [s2 [E [M1 M2]]]].
    symmetry in E. apply append_is_empty in E as [-> ->].
    apply andb_true_iff; split; [apply IH1 | apply IH2]; assumption.
  - apply orb_true_iff in H as [H|H];
      [apply m_alt_l, IH1 | apply m_alt_r, IH2]; assumption.
  - apply orb_true_iff.
    apply alt_inv in H as [H|H]; [left; apply IH1 | right; apply IH2]; assumption.
Qed.

(** A non-empty word of [r*] starts with a non-empty word of [r]. *)
Lemma star_cons_inv (r : regex) (c : ascii) (s : string) :
  matches (Star r) (String c s) ->
  exists s1 s2, s = s1 ++ s2 /\ matches r (String c s1) /\ matches (Star r) s2.
Proof.
  intros H. remember (Star r) as r0 eqn:Er. remember (String c s) as w eqn:Ew.
  revert c s Ew.
  induction H as [| | | | | |r' s1 s2 M1 _ M2 IH2]; try discriminate; intros c s Ew.
  injection Er as ->.
  destruct s1 as [|c1 s1]; simpl in Ew.
  - apply IH2; [reflexivity | assumption].
  - injection Ew as -> <-. eauto.
Qed.

Lemma deriv_matches (r : regex) : forall c s,
  matches (deriv c r) s <-> matches r (String c s).
Proof.
  induction r as [| |cs|r1 IH1 r2 IH2|r1 IH1 r2 IH2|r1 IH1]; intros c s; simpl.
  - split; intros H; inversion H.
  - split; intros H; inversion H.
  - rewrite class_matches.
    destruct (in_class c cs) eqn:Ec; split; intros H.
    + apply eps_inv in H as ->. eauto.
    + destruct H as [c' [E _]]. injection E as _ ->. constructor.
    + inversion H.
    + destruct H as [c' [E Hc]]. injection E as <- _. congruence.
  - assert (Hcat : matches (Cat (deriv c r1) r2) s ->
                   matches (Cat r1 r2) (String c s)).
    { intros H. apply cat_inv in H as [s1 [s2 [-> [M1 M2]]]].
      apply matches_cons; [apply IH1|]; assumption. }
    assert (Hinv : matches (Cat r1 r2) (String c s) ->
                   (matches r1 "" /\ matches r2 (String c s))
                   \/ matches (Cat (deriv c r1) r2) s).
    { intros H. apply cat_inv in H as [s1 [s2 [E [M1 M2]]]].
      symmetry in E. apply append_is_cons in E as [[-> ->]|[s1' [-> ->]]].
      - left; auto.
      - right. constructor; [apply IH1|]; assumption. }
    destruct (nullable r1) eqn:En; split; intros H.
    + apply alt_inv in H as [H|H].
      * now apply Hcat.
      * apply (m_cat _ _ "" (String c s)); [apply nullable_matches | apply IH2]; assumption.
    + apply Hinv in H as [[_ M2]|H].
      * apply m_alt_r, IH2, M2.
      * now apply m_alt_l.
    + now apply Hcat.
    + apply Hinv in H as [[M1 _]|H]; [|assumption].
      apply nullable_matches in M1. congruence.
  - split; intros H; apply alt_inv in H as [H|H];
      solve [apply m_alt_l, IH1; assumption | apply m_alt_r, IH2; assumption].
  - split; intros H.
    + apply cat_inv in H as [s1 [s2 [-> [M1 M2]]]].
      apply (m_star_cons _ (String c s1) s2); [apply IH1|]; assumption.
    + apply star_cons_inv in H as [s1 [s2 [-> [M1 M2]]]].
      constructor; [apply IH1|]; assumption.
Qed.

Theorem fullmatch_matches (s : string) : forall r,
  fullmatch r s = true <-> matches r s.
Proof.
  induction s as [|c s IH]; intros r; simpl.
  - apply nullable_matches.
  - rewrite IH. apply deriv_matches.
Qed.

(** Words of the repetitions of a class. *)
Lemma star_class_matches (cs : charclass) (s : string) :
  matches (Star (Class cs)) s <-> all_chars (fun c => in_class c cs) s = true.
Proof.
  unfold all_chars. split.
  - revert s. induction s as [|c s IH]; intros H; [reflexivity|].
    apply star_cons_inv in H as [s1 [s2 [-> [M1 M2]]]].
    apply class_matches in M1 as [c' [E Hc]]. injection E as <- ->.
    simpl in *. apply andb_true_iff; split; [assumption | now apply IH].
  - induction s as [|c s IH]; simpl; intros H.
    + constructor.
    + apply andb_true_iff in H as [Hc Hs].
      apply (m_star_cons _ (String c "") s); [now constructor | now apply IH].
Qed.

Lemma plus_class_matches (cs : charclass) (s : string) :
  matches (Plus (Class cs)) s <->
  s <> "" /\ all_chars (fun c => in_class c cs) s = true.
Proof.
  unfold Plus. split.
  - intros H. apply cat_inv in H as [s1 [s2 [-> [M1 M2]]]].
    apply class_matches in M1 as [c [-> Hc]].
    apply star_class_matches in M2. simpl. split; [discriminate|].
    unfold all_chars in *. simpl. apply andb_true_iff; auto.
  - intros [Hne H]. destruct s as [|c s]; [congruence|].
    unfold all_chars in H. simpl in H. apply andb_true_iff in H as [Hc Hs].
    apply (m_cat _ _ (String c "") s); [now constructor | now apply star_class_matches].
Qed.

Lemma rep_class_matches (cs : charclass) (n : nat) : forall s,
  matches (Rep n (Class cs)) s <->
  String.length s = n /\ all_chars (fun c => in_class c cs) s = true.
Proof.
  unfold all_chars. induction n as [|n IH]; intros s; simpl.
  - split.
    + intros H; apply eps_inv in H as ->. auto.
    + intros [H _]. destruct s; [constructor | discriminate].
  - split.
    + intros H. apply cat_inv in H as [s1 [s2 [-> [M1 M2]]]].
      apply class_matches in M1 as [c [-> Hc]].
      apply IH in M2 as [Hl Ha]. simpl.
      split; [now rewrite Hl | apply andb_true_iff; auto].
    + intros [Hl Ha]. destruct s as [|c s]; [discriminate|].
      simpl in *. apply andb_true_iff in Ha as [Hc Hs].
      apply (m_cat _ _ (String c "") s);
        [now constructor | apply IH; split; [lia | assumption]].
Qed.

End ReFacts.

(** ** The validators *)

Module ValidatorFacts.
Import Re ReFacts.
#[local] Arguments String.append (s1 s2)%_string_scope : simpl nomatch.

Ltac each_ascii c := destruct c as [[] [] [] [] [] [] [] []].

Lemma name_class (c : ascii) :
  in_class c [("A"%char, "Z"%char); ("a"%char, "z"%char); (" "%char, " "%char)]
  = name_char c.
Proof. each_ascii c; reflexivity. Qed.

Lemma digit_class (c : ascii) : in_class c [("0"%char, "9"%char)] = is_digit c.
Proof. each_ascii c; reflexivity. Qed.

Lemma lit_matches (a : ascii) (s : string) :
  matches (Lit a) s <-> s = String a "".
Proof.
  unfold Lit. rewrite class_matches. split.
  - intros [c [-> H]]. f_equal.
    unfold in_class, in_range in H. simpl in H.
    rewrite orb_false_r in H. apply andb_true_iff in H as [H1 H2].
    apply Nat.leb_le in H1, H2.
    rewrite <- (ascii_nat_embedding a), <- (ascii_nat_embedding c).
    f_equal. lia.
  - intros ->. exists a. split; [reflexivity|].
    unfold in_class, in_range. simpl. now rewrite Nat.leb_refl.
Qed.

Lemma all_chars_ext (p q : ascii -> bool) (s : string) :
  (forall c, p c = q c) -> all_chars p s = all_chars q s.
Proof.
  intros H. unfold all_chars.
  induction (list_ascii_of_string s) as [|c l IH]; simpl; [reflexivity|].
  now rewrite H, IH.
Qed.

Lemma all_chars_append (p : ascii -> bool) (s1 s2 : string) :
  all_chars p (s1 ++ s2) = all_chars p s1 && all_chars p s2.
Proof.
  unfold all_chars. induction s1 as [|c s1 IH]; simpl; [reflexivity|].
  now rewrite IH, andb_assoc.
Qed.

Lemma length_append (s1 s2 : string) :
  String.length (s1 ++ s2) = (String.length s1 + String.length s2)%nat.
Proof. induction s1 as [|c s1 IH]; simpl; [reflexivity | now rewrite IH]. Qed.

Lemma name_pattern_matches (name : string) :
  fullmatch name_pattern name = true <->
  name <> "" /\ all_chars name_char name = true.
Proof.
  rewrite fullmatch_matches. unfold name_pattern.
  rewrite plus_class_matches.
  now rewrite (all_chars_ext _ name_char name name_class).
Qed.

Lemma phone_prefix_matches (s : string) :
  matches (Opt (Alt (Lit "0") (Cat (Lit "9") (Lit "1")))) s <->
  s = "" \/ s = "0" \/ s = "91".
Proof.
  unfold Opt. split.
  - intros H. apply alt_inv in H as [H|H]; [left; now apply eps_inv|].
    apply alt_inv in H as [H|H]; [right; left; now apply lit_matches|].
    apply cat_inv in H as [s1 [s2 [-> [M1 M2]]]].
    apply lit_matches in M1 as ->. apply lit_matches in M2 as ->. auto.
  - intros [-> | [-> | ->]].
    + apply m_alt_l. constructor.
    + apply m_alt_r, m_alt_l. now apply lit_matches.
    + apply m_alt_r, m_alt_r.
      apply (m_cat _ _ "9" "1"); now apply lit_matches.
Qed.

Lemma phone_pattern_matches (phone : string) :
  fullmatch phone_pattern phone = true <->
  exists pre digits,
    phone = pre ++ digits
    /\ (pre = "" \/ pre = "0" \/ pre = "91")
    /\ String.length digits = 10%nat
    /\ all_chars is_digit digits = true.
Proof.
  rewrite fullmatch_matches. unfold phone_pattern. split.
  - intros H. apply cat_inv in H as [pre [digits [-> [M1 M2]]]].
    apply phone_prefix_matches in M1.
    apply rep_class_matches in M2 as [Hl Ha].
    rewrite (all_chars_ext _ is_digit digits digit_class) in Ha.
    exists pre, digits. auto.
  - intros [pre [digits [-> [Hp [Hl Ha]]]]].
    constructor; [now apply phone_prefix_matches|].
    apply rep_class_matches.
    now rewrite (all_chars_ext _ is_digit digits digit_class).
Qed.

End ValidatorFacts.

(** C6. [validate_name] succeeds exactly on the non-empty strings made of
    the letters A-Z, a-z and spaces, and raises [ValidationError] on every
    other string; "John Smith" is accepted, "John3" and the empty string are
    rejected. *)
Theorem validate_name_iff :
  (forall name : string,
      validate_name name = Ok true <->
      name <> "" /\ all_chars name_char name = true)
  /\ (forall name : string,
      validate_name name = Ok true
      \/ validate_name name
         = Raise (ValidationError "Customer name must contain only alphabets and spaces."))
  /\ validate_name "John Smith" = Ok true
  /\ validate_name "John3"
     = Raise (ValidationError "Customer name must contain only alphabets and spaces.")
  /\ validate_name ""
     = Raise (ValidationError "Customer name must contain only alphabets and spaces.").
Proof.
  split; [|split; [|repeat split; reflexivity]].
  - intros name. rewrite <- ValidatorFacts.name_pattern_matches.
    unfold validate_name. destruct (Re.fullmatch name_pattern name); simpl.
    + tauto.
    + split; [discriminate | intros H; discriminate H].
  - intros name. unfold validate_name.
    destruct (Re.fullmatch name_pattern name); simpl; auto.
Qed.

(** C5. [validate_phone] succeeds exactly on the strings that are ten digits,
    optionally preceded by "0" or by "91", so on strings of 10, 11 or 12
    digits and nothing else, and raises [ValidationError] on every other
    string; "9876543210", "09876543210" and "919876543210" are accepted and
    "12345" is rejected. *)
Theorem validate_phone_iff :
  (forall phone : string,
      validate_phone phone = Ok true <->
      exists pre digits,
        phone = pre ++ digits
        /\ (pre = "" \/ pre = "0" \/ pre = "91")
        /\ String.length digits = 10%nat
        /\ all_chars is_digit digits = true)
  /\ (forall phone : string,
      validate_phone phone = Ok true ->
      all_chars is_digit phone = true
      /\ (String.length phone = 10 \/ String.length phone = 11
          \/ String.length phone = 12)%nat)
  /\ (forall phone : string,
      validate_phone phone = Ok true
      \/ validate_phone phone
         = Raise (ValidationError "Phone number must be 10 digits (0 or 91 optional)."))
  /\ validate_phone "9876543210" = Ok true
  /\ validate_phone "09876543210" = Ok true
  /\ validate_phone "919876543210" = Ok true
  /\ validate_phone "12345"
     = Raise (ValidationError "Phone number must be 10 digits (0 or 91 optional).").
Proof.
  assert (Hiff : forall phone : string,
             validate_phone phone = Ok true <->
             Re.fullmatch phone_pattern phone = true).
  { intros phone. unfold validate_phone.
    destruct (Re.fullmatch phone_pattern phone); simpl.
    - tauto.
    - split; discriminate. }
  split; [|split; [|split; [|repeat split; reflexivity]]].
  - intros phone. rewrite Hiff. apply ValidatorFacts.phone_pattern_matches.
  - intros phone H. apply Hiff, ValidatorFacts.phone_pattern_matches in H.
    destruct H as [pre [digits [-> [Hp [Hl Ha]]]]].
    rewrite ValidatorFacts.all_chars_append, ValidatorFacts.length_append, Hl, Ha.
    destruct Hp as [-> | [-> | ->]]; simpl; auto.
  - intros phone. unfold validate_phone.
    destruct (Re.fullmatch phone_pattern phone); simpl; auto.
Qed.

(** ** Dict operations *)

Module DictFacts.
Import Dict.

Section Facts.
Context {V : Type}.
Implicit Types (d : list (string * V)) (k : string) (v : V).

Lemma getitem_contains k d :
  contains k d = true -> exists v, getitem k d = Ok v /\ In (k, v) d.
Proof.
  induction d as [|[k' v'] d IH]; simpl; [discriminate|].
  destruct (String.eqb_spec k k') as [->|Hne]; intros H.
  - exists v'. auto.
  - destruct (IH H) as [v [E HIn]]. exists v. auto.
Qed.

Lemma getitem_absent k d :
  contains k d = false -> getitem k d = Raise (KeyError k).
Proof.
  induction d as [|[k' v'] d IH]; simpl; [reflexivity|].
  destruct (String.eqb k k'); [discriminate | exact IH].
Qed.

Lemma getitem_Ok_contains k d v : getitem k d = Ok v -> contains k d = true.
Proof.
  destruct (contains k d) eqn:E; [reflexivity|].
  rewrite (getitem_absent _ _ E). discriminate.
Qed.

Lemma getitem_In k d v : getitem k d = Ok v -> In (k, v) d.
Proof.
  intros H. destruct (getitem_contains k d (getitem_Ok_contains _ _ _ H)) as [v' [E HIn]].
  congruence.
Qed.

Lemma contains_In k d : contains k d = true <-> In k (keys d).
Proof.
  unfold keys. induction d as [|[k' v'] d IH]; simpl.
  - split; [discriminate | tauto].
  - destruct (String.eqb_spec k k') as [->|Hne].
    + tauto.
    + rewrite IH. split; [auto | intros [E|H]; [congruence | exact H]].
Qed.

Lemma contains_count k d : contains k d = true <-> (0 < count k d)%nat.
Proof.
  induction d as [|[k' v'] d IH]; simpl.
  - split; [discriminate | lia].
  - destruct (String.eqb k k'); [split; [lia | reflexivity] | exact IH].
Qed.

Lemma getitem_setitem_eq k v d : getitem k (setitem k v d) = Ok v.
Proof.
  induction d as [|[k' v'] d IH]; simpl.
  - now rewrite String.eqb_refl.
  - destruct (String.eqb k k') eqn:E; simpl; rewrite E; [reflexivity | exact IH].
Qed.

Lemma getitem_setitem_ne k k0 v d :
  k0 <> k -> getitem k0 (setitem k v d) = getitem k0 d.
Proof.
  intros Hne. induction d as [|[k' v'] d IH]; simpl.
  - apply String.eqb_neq in Hne. now rewrite Hne.
  - destruct (String.eqb_spec k k') as [->|Hk]; simpl.
    + apply String.eqb_neq in Hne. now rewrite Hne.
    + now rewrite IH.
Qed.

Lemma keys_setitem k v d :
  keys (setitem k v d) = if contains k d then keys d else app (keys d) [k].
Proof.
  unfold keys. induction d as [|[k' v'] d IH]; simpl; [reflexivity|].
  destruct (String.eqb k k'); simpl; [reflexivity|].
  rewrite IH. now destruct (contains k d).
Qed.

Lemma count_setitem k k0 v d :
  count k0 (setitem k v d)
  = if contains k d then count k0 d
    else (count k0 d + if String.eqb k0 k then 1 else 0)%nat.
Proof.
  induction d as [|[k' v'] d IH]; simpl; [lia|].
  destruct (String.eqb k k'); simpl; [reflexivity|].
  rewrite IH. destruct (contains k d); lia.
Qed.

Lemma In_setitem k v d k0 v0 :
  In (k0, v0) (setitem k v d) -> (k0 = k /\ v0 = v) \/ In (k0, v0) d.
Proof.
  induction d as [|[k' v'] d IH]; simpl.
  - intros [E|[]]. injection E as <- <-. auto.
  - destruct (String.eqb_spec k k') as [->|Hk]; simpl.
    + intros [E|H]; [injection E as <- <-|]; auto.
    + intros [E|H]; [auto|]. destruct (IH H); auto.
Qed.

Lemma delitem_absent k d :
  contains k d = false -> delitem k d = Raise (KeyError k).
Proof.
  induction d as [|[k' v'] d IH]; simpl; [reflexivity|].
  destruct (String.eqb k k'); [discriminate|].
  intros H. now rewrite (IH H).
Qed.

Lemma delitem_contains k d :
  contains k d = true -> exists d', delitem k d = Ok d'.
Proof.
  induction d as [|[k' v'] d IH]; simpl; [discriminate|].
  destruct (String.eqb k k'); [eauto|].
  intros H. destruct (IH H) as [d' ->]. eauto.
Qed.

Lemma In_delitem k d d' e : delitem k d = Ok d' -> In e d' -> In e d.
Proof.
  revert d'. induction d as [|[k' v'] d IH]; simpl; intros d'; [discriminate|].
  destruct (String.eqb k k').
  - intros E; injection E as ->. auto.
  - destruct (delitem k d) as [d''|]; [|discriminate].
    intros E; injection E as <-. intros [H|H]; [auto|]. right. now apply (IH d'').
Qed.

Lemma count_delitem k k0 d d' :
  delitem k d = Ok d' -> (count k0 d' <= count k0 d)%nat.
Proof.
  revert d'. induction d as [|[k' v'] d IH]; simpl; intros d'; [discriminate|].
  destruct (String.eqb k k').
  - intros E; injection E as ->. lia.
  - destruct (delitem k d) as [d''|]; [|discriminate].
    intros E; injection E as <-. simpl. specialize (IH d'' eq_refl). lia.
Qed.

Lemma truth_false d : truth d = false <-> d = [].
Proof. destruct d; simpl; split; congruence. Qed.
End Facts.
End DictFacts.

(** ** The script acts on the store as [step_store] *)

Module ScriptFacts.
Import DictFacts.

Lemma eff_ext (m : M unit) (f g : Store -> Store) :
  eff m f -> (forall s, f s = g s) -> eff m g.
Proof. intros H E w. destruct (H w) as [d Hd]. exists d. now rewrite <- E. Qed.

Lemma eff_ret : eff (ret tt) (fun s => s).
Proof. intros [c fs d]. exists d. reflexivity. Qed.

Lemma eff_show (o : Output) : eff (show o) (fun s => s).
Proof. intros w. eexists. reflexivity. Qed.

Lemma eff_set_cart (c : Cart) : eff (set_cart c) (fun s => (c, snd s)).
Proof. intros w. eexists. reflexivity. Qed.

Lemma eff_bind (m : M unit) (k : unit -> M unit) (f g h : Store -> Store) :
  eff m f -> eff (k tt) g -> (forall s, h s = g (f s)) -> eff (bind m k) h.
Proof.
  intros Hm Hk E w. unfold bind. destruct (Hm w) as [d ->].
  destruct (Hk {| cart := fst (f (store w)); files := snd (f (store w)); display := d |})
    as [d' ->].
  exists d'. rewrite E. unfold store. simpl.
  now rewrite <- (surjective_pairing (f (cart w, files w))).
Qed.

Lemma eff_get_cart (k : Cart -> M unit) (g : Cart -> Store -> Store) (h : Store -> Store) :
  (forall c, eff (k c) (g c)) -> (forall s, h s = g (fst s) s) ->
  eff (bind get_cart k) h.
Proof.
  intros Hk E w. unfold bind, get_cart.
  destruct (Hk (cart w) w) as [d ->]. exists d. now rewrite E.
Qed.

Lemma eff_when (b : bool) (m : M unit) (f h : Store -> Store) :
  eff m f -> (forall s, h s = if b then f s else s) -> eff (when b m) h.
Proof.
  intros H E. apply (eff_ext (when b m) (fun s => if b then f s else s)).
  - destruct b; [exact H | apply eff_ret].
  - intros s. now rewrite E.
Qed.

Lemma eff_if (b : bool) (m1 m2 : M unit) (f1 f2 h : Store -> Store) :
  eff m1 f1 -> eff m2 f2 -> (forall s, h s = if b then f1 s else f2 s) ->
  eff (if b then m1 else m2) h.
Proof.
  intros H1 H2 E. apply (eff_ext _ (fun s => if b then f1 s else f2 s)).
  - destruct b; assumption.
  - intros s. now rewrite E.
Qed.

Lemma eff_for_each_show {A} (xs : list A) (f : A -> Output) :
  eff (for_each xs (fun x => show (f x))) (fun s => s).
Proof.
  induction xs as [|x xs IH]; simpl.
  - apply eff_ret.
  - apply (eff_bind _ _ _ _ _ (eff_show (f x)) IH). reflexivity.
Qed.

(** The handlers, with their [try ... except]. *)
Lemma eff_add_to_cart (p : string) (q : Z) :
  eff (try_except (add_to_cart p q)) (fun s => (cart_add p q (fst s), snd s)).
Proof.
  intros [c fs d]. unfold try_except, add_to_cart, cart_add, bind, when, lift, store.
  generalize products; intros catalog. simpl.
  destruct (Dict.contains p catalog) eqn:Ep; simpl.
  - destruct (getitem_contains _ _ Ep) as [price0 [-> _]]. simpl.
    destruct (Dict.contains p c) eqn:Ec; simpl.
    + destruct (getitem_contains _ _ Ec) as [l [-> _]]. simpl. eexists. reflexivity.
    + rewrite (getitem_absent _ _ Ec). simpl. eexists. reflexivity.
  - rewrite (getitem_absent _ _ Ep). simpl. eexists. reflexivity.
Qed.

Lemma eff_update_quantity (item : string) (q : Z) :
  eff (try_except (update_quantity item q)) (fun s => (cart_update item q (fst s), snd s)).
Proof.
  intros [c fs d]. unfold try_except, update_quantity, cart_update, bind, lift, store.
  simpl. destruct (Dict.getitem item c); simpl; eexists; reflexivity.
Qed.

Lemma eff_remove_item (item : string) :
  eff (try_except (remove_item item)) (fun s => (cart_remove item (fst s), snd s)).
Proof.
  intros [c fs d]. unfold try_except, remove_item, cart_remove, bind, lift, store.
  simpl. destruct (Dict.delitem item c); simpl; eexists; reflexivity.
Qed.

Lemma eff_clear_cart : eff clear_cart (fun s => ([], snd s)).
Proof. intros w. eexists. reflexivity. Qed.

Section WithRepr.
Variable float_repr : float -> string.

Lemma eff_place_order (inp : Inputs) :
  eff (try_except (place_order float_repr (disk inp) (now inp) (customer_name inp)
                               (phone inp) (filename inp)))
      (order_store float_repr inp).
Proof.
  intros [c fs d].
  unfold try_except, place_order, order_store, generate_invoice, bind, lift, store.
  simpl. destruct (Dict.truth c); simpl; [|eexists; reflexivity].
  destruct (validate_name (customer_name inp)); simpl; [|eexists; reflexivity].
  destruct (validate_phone (phone inp)); simpl; [|eexists; reflexivity].
  destruct (strip_is_empty (filename inp)); simpl; [eexists; reflexivity|].
  destruct (invoice_locals float_repr (now inp) (customer_name inp) (phone inp) c)
    as [l|e]; simpl; [|eexists; reflexivity].
  unfold write_file. cbn [cart files display].
  destruct (disk inp (filename inp ++ ".txt") (invoice_text l)) as [|e|e partial];
    cbn [cart files display]; [|eexists; reflexivity|eexists; reflexivity].
  unfold read_file. simpl. rewrite lookup_insert_eq. simpl. eexists. reflexivity.
Qed.

Ltac eff_step :=
  lazymatch goal with
  | |- eff (bind get_cart _) _ => eapply eff_get_cart; [intros ?|]
  | |- eff (bind _ _) _ => eapply eff_bind
  | |- eff (show _) _ => eapply eff_show
  | |- eff (for_each _ _) _ => eapply eff_for_each_show
  | |- eff (when _ _) _ => eapply eff_when
  | |- eff (if _ then _ else _) _ => eapply eff_if
  | |- eff (try_except (add_to_cart _ _)) _ => eapply eff_add_to_cart
  | |- eff (try_except (update_quantity _ _)) _ => eapply eff_update_quantity
  | |- eff (try_except (remove_item _)) _ => eapply eff_remove_item
  | |- eff (try_except (place_order _ _ _ _ _ _)) _ => eapply eff_place_order
  | |- eff clear_cart _ => eapply eff_clear_cart
  | |- forall s : Store, _ = _ => intros ?; reflexivity
  end.

Lemma eff_script (inp : Inputs) : eff (script float_repr inp) (step_store float_repr inp).
Proof.
  unfold script.
  eapply eff_ext.
  { repeat (cbv beta; eff_step). }
  intros [c fs]. unfold step_store, st_button.
  destruct (clicked inp) as [[]|]; destruct c as [|line c]; simpl;
    repeat match goal with
      | |- context [Dict.truth ?x] => destruct (Dict.truth x); simpl
      end;
    reflexivity.
Qed.

(** One run of the script is one step of [step_store]. *)
Lemma rerun_store (inp : Inputs) (w : World) :
  store (rerun float_repr inp w) = step_store float_repr inp (store w).
Proof.
  unfold rerun.
  destruct (eff_script inp {| cart := cart w; files := files w; display := [] |})
    as [d ->].
  unfold store. simpl. now rewrite <- surjective_pairing.
Qed.

Lemma rerun_cart (inp : Inputs) (w : World) :
  cart (rerun float_repr inp w) = fst (step_store float_repr inp (store w)).
Proof. rewrite <- rerun_store. reflexivity. Qed.

Lemma rerun_files (inp : Inputs) (w : World) :
  files (rerun float_repr inp w) = snd (step_store float_repr inp (store w)).
Proof. rewrite <- rerun_store. reflexivity. Qed.
End WithRepr.
End ScriptFacts.

(** ** The cart under the handlers *)

Module CartFacts.
Import DictFacts.

Lemma getitem_absent_count (k : string) (c : Cart) (e : exn) :
  Dict.getitem k c = Raise e -> Dict.contains k c = false.
Proof.
  intros H. destruct (Dict.contains k c) eqn:E; [|reflexivity].
  destruct (getitem_contains _ _ E) as [v [Hv _]]. congruence.
Qed.

Lemma catalog_priced_add (p : string) (q : Z) (c : Cart) :
  catalog_priced c -> catalog_priced (cart_add p q c).
Proof.
  intros Hc. unfold cart_add.
  destruct (Dict.getitem p products) as [price0|] eqn:Ep; [|exact Hc].
  destruct (Dict.getitem p c) as [d|] eqn:Ed; intros item d' HIn;
    apply In_setitem in HIn as [[-> ->]|HIn]; cbn [price]; auto.
  apply (Hc p d). now apply getitem_In.
Qed.

Lemma catalog_priced_update (item : string) (q : Z) (c : Cart) :
  catalog_priced c -> catalog_priced (cart_update item q c).
Proof.
  intros Hc. unfold cart_update.
  destruct (Dict.getitem item c) as [d|] eqn:Ed; [|exact Hc].
  intros k d' HIn. apply In_setitem in HIn as [[-> ->]|HIn]; cbn [price]; auto.
  apply (Hc item d). now apply getitem_In.
Qed.

Lemma catalog_priced_remove (item : string) (c : Cart) :
  catalog_priced c -> catalog_priced (cart_remove item c).
Proof.
  intros Hc. unfold cart_remove.
  destruct (Dict.delitem item c) as [c'|] eqn:Ed; [|exact Hc].
  intros k d HIn. apply (Hc k d). exact (In_delitem _ _ _ _ Ed HIn).
Qed.

Lemma catalog_priced_nil : catalog_priced [].
Proof. intros k d []. Qed.

Lemma catalog_priced_step (float_repr : float -> string) (inp : Inputs) (s : Store) :
  catalog_priced (fst s) -> catalog_priced (fst (step_store float_repr inp s)).
Proof.
  intros Hc. unfold step_store.
  destruct (clicked inp) as [[]|]; simpl.
  - now apply catalog_priced_add.
  - now apply catalog_priced_update.
  - now apply catalog_priced_remove.
  - apply catalog_priced_nil.
  - unfold order_store.
    repeat match goal with
      | |- context [match ?x with _ => _ end] => destruct x; try exact Hc
      end; apply catalog_priced_nil.
  - exact Hc.
Qed.

(** Adding a catalog product. *)
Section Add.
Variables (p : string) (q : Z) (c : Cart).
Hypothesis in_catalog : Dict.contains p products = true.

Lemma count_add (k : string) :
  Dict.count k (cart_add p q c)
  = if Dict.contains p c then Dict.count k c
    else (Dict.count k c + if String.eqb k p then 1 else 0)%nat.
Proof.
  unfold cart_add. destruct (getitem_contains _ _ in_catalog) as [price0 [-> _]].
  destruct (Dict.getitem p c) as [d|] eqn:Ed; rewrite count_setitem.
  - now rewrite (getitem_Ok_contains _ _ _ Ed).
  - now rewrite (getitem_absent_count _ _ _ Ed).
Qed.

Lemma unique_keys_add : unique_keys c -> unique_keys (cart_add p q c).
Proof.
  intros Hu k. rewrite count_add. specialize (Hu k).
  destruct (Dict.contains p c) eqn:Ec; [exact Hu|].
  destruct (String.eqb_spec k p) as [->|Hne]; [|lia].
  assert (Dict.count p c = 0)%nat; [|lia].
  destruct (Dict.count p c) eqn:En; [reflexivity|].
  assert (Dict.contains p c = true) by (apply contains_count; lia). congruence.
Qed.

Lemma contains_add (k : string) :
  Dict.contains k (cart_add p q c) = Dict.contains k c || String.eqb k p.
Proof.
  apply eq_true_iff_eq. rewrite orb_true_iff, !contains_count, count_add.
  destruct (Dict.contains p c) eqn:Ec.
  - destruct (String.eqb_spec k p) as [->|Hne].
    + apply contains_count in Ec. intuition.
    + intuition discriminate.
  - destruct (String.eqb_spec k p) as [->|Hne].
    + intuition lia.
    + rewrite Nat.add_0_r. intuition discriminate.
Qed.

Lemma qty_of_add (k : string) :
  qty_of k (cart_add p q c) = qty_of k c + if String.eqb k p then q else 0.
Proof.
  unfold qty_of, cart_add. destruct (getitem_contains _ _ in_catalog) as [price0 [-> _]].
  destruct (String.eqb_spec k p) as [->|Hne].
  - destruct (Dict.getitem p c) as [d|] eqn:Ed;
      rewrite getitem_setitem_eq; simpl; lia.
  - destruct (Dict.getitem p c) as [d|] eqn:Ed;
      rewrite (getitem_setitem_ne _ _ _ _ Hne); lia.
Qed.
End Add.

Lemma reruns_adds (float_repr : float -> string) (inps : list Inputs) :
  (forall inp, In inp inps -> clicked inp = Some AddToCart) ->
  forall w, cart (reruns float_repr inps w) = adds inps (cart w).
Proof.
  unfold reruns, adds. induction inps as [|inp inps IH]; intros Hall w; simpl.
  - reflexivity.
  - rewrite IH by (intros; apply Hall; now right).
    rewrite ScriptFacts.rerun_cart. unfold step_store.
    now rewrite (Hall inp (or_introl eq_refl)).
Qed.

Lemma added_for_cons (k : string) (inp : Inputs) (inps : list Inputs) :
  added_for k (inp :: inps)
  = (if String.eqb k (product inp) then quantity inp else 0) + added_for k inps.
Proof.
  unfold added_for. simpl. destruct (String.eqb k (product inp)); simpl; lia.
Qed.

Lemma adds_spec (inps : list Inputs) :
  (forall inp, In inp inps -> Dict.contains (product inp) products = true) ->
  forall c, unique_keys c -> catalog_priced c ->
  unique_keys (adds inps c)
  /\ catalog_priced (adds inps c)
  /\ forall k,
       qty_of k (adds inps c) = qty_of k c + added_for k inps
       /\ Dict.contains k (adds inps c)
          = Dict.contains k c || existsb (fun inp => String.eqb k (product inp)) inps.
Proof.
  unfold adds. induction inps as [|inp inps IH]; intros Hcat c Hu Hp; simpl.
  - repeat split; try assumption.
    + unfold added_for. simpl. lia.
    + now rewrite orb_false_r.
  - assert (Hin : Dict.contains (product inp) products = true)
      by (apply Hcat; now left).
    destruct (IH (fun i Hi => Hcat i (or_intror Hi))
                 (cart_add (product inp) (quantity inp) c)
                 (unique_keys_add _ _ _ Hin Hu)
                 (catalog_priced_add _ _ _ Hp)) as [Hu' [Hp' Hk]].
    repeat split; try assumption.
    + rewrite (proj1 (Hk k)), (qty_of_add _ _ _ Hin), added_for_cons. lia.
    + rewrite (proj2 (Hk k)), (contains_add _ _ _ Hin). now rewrite orb_assoc.
Qed.
End CartFacts.

(** ** Conversion of small integers to floats *)

Module FloatFacts.

Lemma digits2_size (m : positive) : digits2_pos m = Pos.size m.
Proof. induction m as [m IH|m IH|]; simpl; now rewrite ?IH. Qed.

Lemma digits2_shift (m k : positive) :
  digits2_pos (Pos.iter xO m k) = (digits2_pos m + k)%positive.
Proof.
  induction k as [|k IH] using Pos.peano_ind.
  - simpl. now rewrite Pos.add_1_r.
  - rewrite Pos.iter_succ. simpl. rewrite IH. now rewrite Pos.add_succ_r.
Qed.

Lemma digits2_bound (m : positive) :
  Zpos m < 2 ^ 53 -> Zpos (digits2_pos m) <= 53.
Proof.
  intros H. rewrite digits2_size.
  pose proof (Pos.size_le m) as Hs.
  assert (H2 : 2 ^ Zpos (Pos.size m) <= 2 * Zpos m).
  { change (2 * Zpos m) with (Zpos m~0). rewrite <- Pos2Z.inj_pow.
    now apply Pos2Z.pos_le_pos. }
  assert (H3 : 2 ^ Zpos (Pos.size m) < 2 ^ 54).
  { change (2 ^ 54) with (2 * 2 ^ 53). lia. }
  apply Z.pow_lt_mono_r_iff in H3; lia.
Qed.

(** A positive integer of at most 53 bits is a float: the mantissa is the
    integer shifted to 53 bits. *)
Lemma binary_round_small (sx : bool) (m : positive) :
  Zpos (digits2_pos m) <= 53 ->
  exists mz ez, binary_round prec emax sx m 0 = S754_finite sx mz ez.
Proof.
  intros Hd. unfold binary_round, shl_align.
  set (d := digits2_pos m) in *.
  assert (Hfexp : fexp prec emax (Zpos d + 0) = Zpos d - 53).
  { unfold fexp, emin, prec, emax. lia. }
  rewrite Hfexp.
  assert (Haux : forall mz ez,
             Zpos (digits2_pos mz) = 53 -> -52 <= ez <= 0 ->
             binary_round_aux prec emax sx (Zpos mz) ez loc_Exact = S754_finite sx mz ez).
  { intros mz ez Hmz Hez. unfold binary_round_aux.
    assert (Hs : shr_fexp prec emax (Zpos mz) ez loc_Exact
                 = ({| shr_m := Zpos mz; shr_r := false; shr_s := false |}, ez)).
    { unfold shr_fexp, shr. simpl Zdigits2. rewrite Hmz.
      replace (fexp prec emax (53 + ez) - ez) with 0
        by (unfold fexp, emin, prec, emax; lia).
      reflexivity. }
    rewrite Hs. simpl. rewrite Hs. simpl.
    replace (ez <=? emax - prec) with true; [reflexivity|].
    symmetry. apply Z.leb_le. unfold emax, prec. lia. }
  destruct (Zpos d - 53 - 0) as [|k|k] eqn:Ek.
  - exists m, 0. apply Haux; [fold d; lia | lia].
  - lia.
  - exists (Pos.iter xO m k), (Zpos d - 53). apply Haux.
    + rewrite digits2_shift. fold d. lia.
    + lia.
Qed.

Theorem float_of_int_small (n : Z) :
  - 2 ^ 53 < n < 2 ^ 53 -> exists f, float_of_int n = Ok f.
Proof.
  intros Hn. unfold float_of_int, binary_normalize.
  destruct n as [|m|m].
  - eauto.
  - destruct (binary_round_small false m) as [mz [ez ->]]; [apply digits2_bound; lia | eauto].
  - destruct (binary_round_small true m) as [mz [ez ->]]; [apply digits2_bound; lia | eauto].
Qed.

(** The first integer that has no float: the midpoint between the largest
    double and 2^1024 rounds up, out of range. *)
Lemma float_of_int_overflow :
  float_of_int (2 ^ 1024 - 2 ^ 970)
  = Raise (OverflowError "int too large to convert to float")
  /\ float_of_int (2 ^ 1024 - 2 ^ 970 - 1)
     = Ok (S754_finite false 9007199254740991 971).
Proof. split; vm_compute; reflexivity. Qed.

End FloatFacts.

(** ** The invoice *)

Module InvoiceFacts.

Lemma invoice_loop_total (cart : Cart) : forall total invoice,
  fst (fold_left invoice_item cart (total, invoice)) = total + subtotal_spec cart.
Proof.
  unfold subtotal_spec.
  induction cart as [|[item d] cart IH]; intros total invoice; simpl.
  - lia.
  - rewrite IH. unfold line_cost. simpl. lia.
Qed.

Lemma invoice_locals_amounts (float_repr : float -> string)
    (now customer_name phone : string) (cart : Cart) :
  amounts (invoice_locals float_repr now customer_name phone cart) = amounts_spec cart.
Proof.
  unfold invoice_locals, amounts_spec.
  match goal with
  | |- context [fold_left invoice_item cart (0, ?inv)] =>
      pose proof (invoice_loop_total cart 0 inv) as Ht;
      destruct (fold_left invoice_item cart (0, inv)) as [total invoice]
  end.
  simpl in Ht. rewrite Z.add_0_l in Ht. subst total.
  destruct (int_mul_float (subtotal_spec cart) gst_rate) as [gst|e]; [|reflexivity].
  destruct (int_add_float (subtotal_spec cart) gst) as [grand|e]; reflexivity.
Qed.

Lemma amounts_Ok (r : result InvoiceLocals) (a : Z * float * float) :
  amounts r = Ok a -> exists l, r = Ok l.
Proof. destruct r as [l|e]; [eauto | discriminate]. Qed.

End InvoiceFacts.

(** C1. For a non-empty cart, the amounts [generate_invoice] computes are
    those of the specification: the subtotal is the sum over the lines of unit
    price times quantity, the GST amount is subtotal * 0.10 and the grand
    total is subtotal + GST amount, in Python's arithmetic (an int times or
    plus a binary64 float); they exist whenever the subtotal converts to a
    float, which every subtotal below 2^53 in absolute value does.  For the
    cart {Apple: 3 at 80, Banana: 2 at 40} they are 320, 32.0
    and 352.0 exactly. *)
Theorem generate_invoice_amounts (float_repr : float -> string)
    (now customer_name phone : string) (cart : Cart) :
  cart <> [] ->
  amounts (invoice_locals float_repr now customer_name phone cart) = amounts_spec cart
  /\ (forall f, float_of_int (subtotal_spec cart) = Ok f ->
      amounts (invoice_locals float_repr now customer_name phone cart)
      = Ok (subtotal_spec cart,
            SFmul prec emax f gst_rate,
            SFadd prec emax f (SFmul prec emax f gst_rate)))
  /\ (- 2 ^ 53 < subtotal_spec cart < 2 ^ 53 ->
      exists gst grand,
        amounts (invoice_locals float_repr now customer_name phone cart)
        = Ok (subtotal_spec cart, gst, grand))
  /\ amounts (invoice_locals float_repr now customer_name phone apple_banana)
     = Ok (320, float_32, float_352)
  /\ float_of_int 32 = Ok float_32
  /\ float_of_int 352 = Ok float_352.
Proof.
  intros _.
  assert (Hf : forall f, float_of_int (subtotal_spec cart) = Ok f ->
             amounts (invoice_locals float_repr now customer_name phone cart)
             = Ok (subtotal_spec cart,
                   SFmul prec emax f gst_rate,
                   SFadd prec emax f (SFmul prec emax f gst_rate))).
  { intros f Hf. rewrite InvoiceFacts.invoice_locals_amounts.
    unfold amounts_spec, int_mul_float, int_add_float. now rewrite Hf. }
  split; [apply InvoiceFacts.invoice_locals_amounts|].
  split; [exact Hf|].
  split; [|split; [|split; reflexivity]].
  - intros Hs. destruct (FloatFacts.float_of_int_small _ Hs) as [f Hfl].
    rewrite (Hf f Hfl). eauto.
  - rewrite InvoiceFacts.invoice_locals_amounts. reflexivity.
Qed.

Lemma generate_invoice_amounts_witness :
  apple_banana <> []
  /\ amounts (invoice_locals sample_repr "2024-01-01 10:00:00" "John Smith" "9876543210"
                             apple_banana)
     = amounts_spec apple_banana.
Proof.
  split; [discriminate|].
  apply (generate_invoice_amounts sample_repr "2024-01-01 10:00:00" "John Smith"
                                  "9876543210" apple_banana).
  discriminate.
Defined.



(** ** The cart operations *)

(** C2. Starting from a new session, after any series of runs in which
    "Add to Cart" is pressed for catalog products with quantities of at least
    1, every product that was added has exactly one line in the cart; the
    line carries the catalog price and its quantity is the sum of all the
    quantities added for that product. *)
Theorem add_accumulates (float_repr : float -> string) (inps : list Inputs) (p : string) :
  (forall inp, In inp inps ->
     clicked inp = Some AddToCart
     /\ Dict.contains (product inp) products = true
     /\ 1 <= quantity inp) ->
  In p (map product inps) ->
  let c := cart (reruns float_repr inps new_session) in
  Dict.count p c = 1%nat
  /\ exists price0,
       Dict.getitem p products = Ok price0
       /\ Dict.getitem p c = Ok {| price := price0; qty := added_for p inps |}.
Proof.
  intros Hall Hp. cbv zeta.
  rewrite (CartFacts.reruns_adds float_repr inps) by (intros inp Hi; apply (Hall inp Hi)).
  change (cart new_session) with (@nil (string * CartLine)).
  destruct (CartFacts.adds_spec inps (fun inp Hi => proj1 (proj2 (Hall inp Hi))) [])
    as [Hu [Hc Hk]].
  { intros k. simpl. lia. }
  { apply CartFacts.catalog_priced_nil. }
  destruct (Hk p) as [Hq Hin]. simpl in Hin.
  assert (Hcont : Dict.contains p (adds inps []) = true).
  { rewrite Hin. apply existsb_exists.
    apply in_map_iff in Hp as [inp [E Hi]]. exists inp.
    split; [exact Hi | rewrite E; apply String.eqb_refl]. }
  split.
  - apply DictFacts.contains_count in Hcont. specialize (Hu p). lia.
  - destruct (DictFacts.getitem_contains _ _ Hcont) as [d [Hd HIn]].
    exists (price d). split; [apply (Hc p d HIn)|].
    rewrite Hd. unfold qty_of in Hq. rewrite Hd in Hq. simpl in Hq.
    destruct d as [pr qt]. simpl in *. now rewrite Hq.
Qed.

Lemma add_accumulates_witness :
  let inps := [add_click "Apple" 3; add_click "Banana" 2; add_click "Apple" 4] in
  Dict.count "Apple" (cart (reruns sample_repr inps new_session)) = 1%nat
  /\ exists price0,
       Dict.getitem "Apple" products = Ok price0
       /\ Dict.getitem "Apple" (cart (reruns sample_repr inps new_session))
          = Ok {| price := price0; qty := added_for "Apple" inps |}.
Proof.
  apply (add_accumulates sample_repr
           [add_click "Apple" 3; add_click "Banana" 2; add_click "Apple" 4] "Apple").
  - intros inp [<-|[<-|[<-|[]]]]; repeat split; vm_compute; congruence.
  - vm_compute. auto.
Defined.

(** C10. In every world the session can reach, whatever the inputs of its
    runs, each line of the cart carries the catalog price of its product:
    the price is taken from the catalog when the line is created and no
    handler changes it, and the catalog is a constant. *)
Theorem reachable_catalog_priced (float_repr : float -> string) (w : World) :
  reachable float_repr w ->
  forall item d, In (item, d) (cart w) -> Dict.getitem item products = Ok (price d).
Proof.
  intros H. change (catalog_priced (cart w)).
  induction H as [|w inp _ IH].
  - apply CartFacts.catalog_priced_nil.
  - rewrite ScriptFacts.rerun_cart. now apply CartFacts.catalog_priced_step.
Qed.

Lemma reachable_catalog_priced_witness :
  reachable sample_repr (rerun sample_repr (add_click "Apple" 3) new_session)
  /\ Dict.getitem "Apple" products = Ok (price {| price := 80; qty := 3 |}).
Proof.
  assert (Hr : reachable sample_repr (rerun sample_repr (add_click "Apple" 3) new_session))
    by (apply reach_rerun, reach_new).
  split; [exact Hr|].
  apply (reachable_catalog_priced sample_repr _ Hr "Apple" {| price := 80; qty := 3 |}).
  rewrite ScriptFacts.rerun_cart. left. reflexivity.
Defined.

(** C9. "Clear Cart" always succeeds and leaves an empty cart, whatever the
    cart was; a second clearing run leaves the cart and the files as the
    first one did. *)
Theorem clear_cart_idempotent (float_repr : float -> string) (inp : Inputs) (w : World) :
  fst (clear_cart w) = Ok tt
  /\ cart (snd (clear_cart w)) = []
  /\ Dict.truth (cart (rerun float_repr (click ClearCart inp) w)) = false
  /\ store (rerun float_repr (click ClearCart inp) (rerun float_repr (click ClearCart inp) w))
     = store (rerun float_repr (click ClearCart inp) w)
  /\ store (snd (clear_cart (snd (clear_cart w)))) = store (snd (clear_cart w)).
Proof.
  split; [reflexivity|]. split; [reflexivity|].
  rewrite ScriptFacts.rerun_cart, !ScriptFacts.rerun_store.
  unfold step_store, click. simpl. repeat split.
Qed.

(** C7. A run in which "Place Order" is pressed on an empty cart shows the
    error "Cart is empty! Add items before placing order.", reports no order,
    writes no file and leaves the cart empty; the handler itself does nothing
    but show that error. *)
Theorem place_order_empty_cart (float_repr : float -> string) (inp : Inputs) (w : World) :
  cart w = [] ->
  let w' := rerun float_repr (click PlaceOrder inp) w in
  In (st_error "Cart is empty! Add items before placing order.") (display w')
  /\ no_order_shown (display w')
  /\ files w' = files w
  /\ cart w' = []
  /\ place_order float_repr (disk inp) (now inp) (customer_name inp) (phone inp)
                 (filename inp) w
     = show (st_error "Cart is empty! Add items before placing order.") w.
Proof.
  intros Hc. destruct w as [c fs d]. simpl in Hc. subst c. cbv zeta.
  split; [|split; [|split; [|split]]].
  - vm_compute. repeat (first [left; reflexivity | right]).
  - unfold no_order_shown. vm_compute. repeat constructor.
  - rewrite ScriptFacts.rerun_files. reflexivity.
  - rewrite ScriptFacts.rerun_cart. reflexivity.
  - reflexivity.
Qed.

Lemma place_order_empty_cart_witness :
  cart new_session = []
  /\ In (st_error "Cart is empty! Add items before placing order.")
        (display (rerun sample_repr (click PlaceOrder sample_inputs) new_session))
  /\ files (rerun sample_repr (click PlaceOrder sample_inputs) new_session) = ∅.
Proof.
  split; [reflexivity|].
  destruct (place_order_empty_cart sample_repr sample_inputs new_session eq_refl)
    as (Hshown & _ & Hfiles & _).
  split; [exact Hshown | exact Hfiles].
Defined.

(** ** Quantities and missing lines: what the handlers check *)

(** C3, as the specification states it, fails: "Add to Cart" with quantity 0
    on a new session raises nothing and adds a line for Apple with
    quantity 0. *)
Lemma add_zero_quantity_accepted :
  add_to_cart "Apple" 0 new_session
  = (Ok tt,
     {| cart := [("Apple", {| price := 80; qty := 0 |})];
        files := ∅;
        display := [st_success "Added 0 x Apple to cart."] |})
  /\ ~ spec_add_rejects "Apple" 0 new_session.
Proof.
  assert (E : add_to_cart "Apple" 0 new_session
              = (Ok tt,
                 {| cart := [("Apple", {| price := 80; qty := 0 |})];
                    files := ∅;
                    display := [st_success "Added 0 x Apple to cart."] |}))
    by reflexivity.
  split; [exact E|].
  intros H. destruct (H ltac:(lia)) as [msg [Hr _]].
  rewrite E in Hr. discriminate Hr.
Qed.

(** C3, amended. The "Add to Cart" handler makes no check of the quantity
    and never fails with InvalidQuantityError, whatever the quantity: the
    quantity input (min_value = 1) only delivers quantities of at least 1.
    For a name outside the catalog the handler raises ProductNotFoundError
    and leaves the world unchanged; for a catalog product it returns
    normally and the quantity of the product's line grows by the quantity
    given. *)
Theorem add_to_cart_no_quantity_check (p : string) (q : Z) (w : World) :
  (forall msg, fst (add_to_cart p q w) <> Raise (InvalidQuantityError msg))
  /\ (forall c inp, widgets_ok c inp = true -> 1 <= quantity inp)
  /\ (Dict.contains p products = false ->
      add_to_cart p q w = (Raise (ProductNotFoundError "Product not available!"), w))
  /\ (Dict.contains p products = true ->
      fst (add_to_cart p q w) = Ok tt
      /\ cart (snd (add_to_cart p q w)) = cart_add p q (cart w)
      /\ qty_of p (cart (snd (add_to_cart p q w))) = qty_of p (cart w) + q).
Proof.
  assert (Hwidgets : forall c inp, widgets_ok c inp = true -> 1 <= quantity inp).
  { intros c inp H. unfold widgets_ok in H.
    apply andb_true_iff in H as [H _]. apply andb_true_iff in H as [H _].
    apply andb_true_iff in H as [_ H]. now apply Z.leb_le. }
  destruct (Dict.contains p products) eqn:Ep.
  - assert (E : fst (add_to_cart p q w) = Ok tt
                /\ cart (snd (add_to_cart p q w)) = cart_add p q (cart w)).
    { unfold add_to_cart, cart_add, bind, when, lift.
      revert Ep. generalize products. intros catalog Ep. rewrite Ep. simpl.
      destruct (DictFacts.getitem_contains _ _ Ep) as [price0 [-> _]].
      destruct w as [c fs d]. simpl.
      destruct (Dict.contains p c) eqn:Ec.
      - destruct (DictFacts.getitem_contains _ _ Ec) as [l [-> _]]. simpl. auto.
      - rewrite (DictFacts.getitem_absent _ _ Ec). simpl. auto. }
    destruct E as [E1 E2].
    split; [intros msg; rewrite E1; discriminate|].
    split; [exact Hwidgets|].
    split; [discriminate|]. intros _.
    split; [exact E1|]. split; [exact E2|].
    rewrite E2, (CartFacts.qty_of_add p q (cart w) Ep p), String.eqb_refl. reflexivity.
  - assert (E : add_to_cart p q w
                = (Raise (ProductNotFoundError "Product not available!"), w)).
    { unfold add_to_cart, bind, when. now rewrite Ep. }
    split; [intros msg; rewrite E; discriminate|].
    split; [exact Hwidgets|].
    split; [intros _; exact E | discriminate].
Qed.

Lemma add_to_cart_no_quantity_check_witness :
  Dict.contains "Apple" products = true
  /\ qty_of "Apple" (cart (snd (add_to_cart "Apple" 2 apple_session))) = 3 + 2.
Proof.
  split; [reflexivity|].
  destruct (add_to_cart_no_quantity_check "Apple" 2 apple_session) as (_ & _ & _ & Hok).
  destruct (Hok eq_refl) as (_ & _ & Hq). exact Hq.
Defined.

(** C4, as the specification states it, fails twice: updating the line of
    Apple to quantity 0 raises nothing and stores 0, and updating a product
    with no line raises KeyError, not ProductNotFoundError. *)
Lemma update_quantity_unchecked :
  update_quantity "Apple" 0 apple_session
  = (Ok tt,
     {| cart := [("Apple", {| price := 80; qty := 0 |})];
        files := ∅;
        display := [st_success "Updated Apple quantity to 0."] |})
  /\ update_quantity "Banana" 5 apple_session = (Raise (KeyError "Banana"), apple_session)
  /\ ~ spec_update_quantity "Apple" 0 apple_session
  /\ ~ spec_update_quantity "Banana" 5 apple_session.
Proof.
  assert (E1 : update_quantity "Apple" 0 apple_session
               = (Ok tt,
                  {| cart := [("Apple", {| price := 80; qty := 0 |})];
                     files := ∅;
                     display := [st_success "Updated Apple quantity to 0."] |}))
    by reflexivity.
  assert (E2 : update_quantity "Banana" 5 apple_session
               = (Raise (KeyError "Banana"), apple_session))
    by reflexivity.
  split; [exact E1|]. split; [exact E2|]. split.
  - intros (_ & H & _). destruct (H ltac:(lia)) as [msg Hr].
    rewrite E1 in Hr. discriminate Hr.
  - intros (H & _). destruct (H eq_refl) as [msg Hr].
    rewrite E2 in Hr. discriminate Hr.
Qed.

(** C4, amended. The "Update Quantity" handler never fails with
    ProductNotFoundError or InvalidQuantityError: the item is chosen among
    the cart's own keys and the new quantity comes from an input with
    min_value = 1.  For a product with a line it returns normally with the
    line's quantity replaced by the new quantity, its unit price, the order
    of the lines, every other line and the files unchanged; for a product
    with no line it raises KeyError and leaves the world unchanged. *)
Theorem update_quantity_replaces (item : string) (q : Z) (w : World) :
  (forall msg,
      fst (update_quantity item q w) <> Raise (ProductNotFoundError msg)
      /\ fst (update_quantity item q w) <> Raise (InvalidQuantityError msg))
  /\ (forall c inp, widgets_ok c inp = true ->
      1 <= new_qty inp /\ (c <> [] -> Dict.contains (selected_item inp) c = true))
  /\ (Dict.contains item (cart w) = false ->
      update_quantity item q w = (Raise (KeyError item), w))
  /\ (forall d, Dict.getitem item (cart w) = Ok d ->
      let w' := snd (update_quantity item q w) in
      fst (update_quantity item q w) = Ok tt
      /\ Dict.getitem item (cart w') = Ok {| price := price d; qty := q |}
      /\ (forall k, k <> item -> Dict.getitem k (cart w') = Dict.getitem k (cart w))
      /\ Dict.keys (cart w') = Dict.keys (cart w)
      /\ files w' = files w).
Proof.
  assert (Hwidgets : forall c inp, widgets_ok c inp = true ->
             1 <= new_qty inp /\ (c <> [] -> Dict.contains (selected_item inp) c = true)).
  { intros c inp H. unfold widgets_ok in H.
    apply andb_true_iff in H as [H Hq]. apply andb_true_iff in H as [_ Hs].
    split; [now apply Z.leb_le|]. intros Hne.
    apply orb_true_iff in Hs as [Hs|Hs]; [exact Hs|].
    destruct c; [congruence | discriminate]. }
  destruct w as [c fs disp]. simpl.
  destruct (Dict.getitem item c) as [d|e] eqn:Ed.
  - assert (E : update_quantity item q {| cart := c; files := fs; display := disp |}
                = (Ok tt,
                   {| cart := Dict.setitem item {| price := price d; qty := q |} c;
                      files := fs;
                      display := app disp [st_success ("Updated " ++ item ++ " quantity to "
                                                       ++ str_of_int q ++ ".")] |})).
    { unfold update_quantity, bind, get_cart, lift. simpl. now rewrite Ed. }
    rewrite E. simpl.
    split; [intros msg; split; discriminate|].
    split; [exact Hwidgets|].
    split; [intros Hc; rewrite (DictFacts.getitem_absent _ _ Hc) in Ed; discriminate|].
    intros d' Hd'. injection Hd' as <-.
    split; [reflexivity|].
    split; [apply DictFacts.getitem_setitem_eq|].
    split; [intros k Hk; now apply DictFacts.getitem_setitem_ne|].
    split; [|reflexivity].
    now rewrite DictFacts.keys_setitem, (DictFacts.getitem_Ok_contains _ _ _ Ed).
  - assert (Hc : Dict.contains item c = false) by exact (CartFacts.getitem_absent_count _ _ _ Ed).
    assert (E : update_quantity item q {| cart := c; files := fs; display := disp |}
                = (Raise (KeyError item), {| cart := c; files := fs; display := disp |})).
    { unfold update_quantity, bind, get_cart, lift. simpl.
      now rewrite (DictFacts.getitem_absent _ _ Hc). }
    rewrite E. simpl.
    split; [intros msg; split; discriminate|].
    split; [exact Hwidgets|].
    split; [reflexivity | discriminate].
Qed.

Lemma update_quantity_replaces_witness :
  Dict.getitem "Apple" (cart apple_session) = Ok {| price := 80; qty := 3 |}
  /\ Dict.getitem "Apple" (cart (snd (update_quantity "Apple" 5 apple_session)))
     = Ok {| price := 80; qty := 5 |}.
Proof.
  split; [reflexivity|].
  destruct (update_quantity_replaces "Apple" 5 apple_session) as (_ & _ & _ & Hok).
  destruct (Hok {| price := 80; qty := 3 |} eq_refl) as (_ & Hq & _). exact Hq.
Defined.

(** ** More on the dict operations: deletion and repeated assignment *)

Module DictMore.
Import Dict DictFacts.

Section More.
Context {V : Type}.
Implicit Types (d : list (string * V)) (k : string) (v : V).

Lemma contains_false_count k d : contains k d = false <-> count k d = 0%nat.
Proof.
  split; intros E.
  - destruct (count k d) eqn:Ec; [reflexivity|].
    assert (contains k d = true) by (apply contains_count; lia). congruence.
  - destruct (contains k d) eqn:Ec; [|reflexivity].
    apply contains_count in Ec. lia.
Qed.

Lemma setitem_absent k v d :
  contains k d = false -> setitem k v d = app d [(k, v)].
Proof.
  induction d as [|[k' v'] d IH]; simpl; [reflexivity|].
  destruct (String.eqb k k'); [discriminate|].
  intros H. now rewrite (IH H).
Qed.

Lemma setitem_twice k v1 v2 d : setitem k v2 (setitem k v1 d) = setitem k v2 d.
Proof.
  induction d as [|[k' v'] d IH]; simpl.
  - now rewrite String.eqb_refl.
  - destruct (String.eqb k k') eqn:E; simpl; rewrite E; [reflexivity | now rewrite IH].
Qed.

Lemma delitem_last k v d :
  contains k d = false -> delitem k (app d [(k, v)]) = Ok d.
Proof.
  induction d as [|[k' v'] d IH]; simpl.
  - now rewrite String.eqb_refl.
  - destruct (String.eqb k k'); [discriminate|].
    intros H. now rewrite (IH H).
Qed.

Lemma getitem_delitem_ne k k0 d d' :
  delitem k d = Ok d' -> k0 <> k -> getitem k0 d' = getitem k0 d.
Proof.
  revert d'. induction d as [|[k' v'] d IH]; simpl; intros d' H Hne; [discriminate|].
  destruct (String.eqb_spec k k') as [->|Hk].
  - injection H as <-. apply String.eqb_neq in Hne. now rewrite Hne.
  - destruct (delitem k d) as [d''|]; [|discriminate].
    injection H as <-. simpl. now rewrite (IH d'' eq_refl Hne).
Qed.

Lemma count_delitem_eq k d d' :
  delitem k d = Ok d' -> (count k d' + 1 = count k d)%nat.
Proof.
  revert d'. induction d as [|[k' v'] d IH]; simpl; intros d' H; [discriminate|].
  destruct (String.eqb k k') eqn:E.
  - injection H as <-. lia.
  - destruct (delitem k d) as [d''|]; [|discriminate].
    injection H as <-. simpl. rewrite E. now apply IH.
Qed.

Lemma length_delitem k d d' :
  delitem k d = Ok d' -> (length d' + 1 = length d)%nat.
Proof.
  revert d'. induction d as [|[k' v'] d IH]; simpl; intros d' H; [discriminate|].
  destruct (String.eqb k k').
  - injection H as <-. lia.
  - destruct (delitem k d) as [d''|]; [|discriminate].
    injection H as <-. simpl. specialize (IH d'' eq_refl). lia.
Qed.

(** Deleting a key that is stored once leaves the other keys in their
    order. *)
Lemma keys_delitem k d d' :
  delitem k d = Ok d' -> (count k d <= 1)%nat ->
  keys d' = List.filter (fun k0 => negb (String.eqb k0 k)) (keys d).
Proof.
  unfold keys. revert d'.
  induction d as [|[k' v'] d IH]; simpl; intros d' H Hc; [discriminate|].
  rewrite (String.eqb_sym k' k).
  destruct (String.eqb k k') eqn:E; simpl.
  - injection H as <-.
    assert (Hz : count k d = 0%nat) by lia.
    clear IH Hc. induction d as [|[k1 v1] d IHd]; simpl in *; [reflexivity|].
    rewrite (String.eqb_sym k1 k).
    destruct (String.eqb k k1); simpl; [lia|]. now rewrite <- IHd.
  - destruct (delitem k d) as [d''|]; [|discriminate].
    injection H as <-. simpl. now rewrite (IH d'' eq_refl Hc).
Qed.
End More.
End DictMore.

(** ** Invariants of the cart over a session *)

Module CartMore.
Import DictFacts DictMore CartFacts.

Lemma unique_keys_nil : unique_keys [].
Proof. intros k. simpl. lia. Qed.

Lemma unique_keys_cart_add (p : string) (q : Z) (c : Cart) :
  unique_keys c -> unique_keys (cart_add p q c).
Proof.
  intros Hu. destruct (Dict.contains p products) eqn:Ep.
  - now apply unique_keys_add.
  - unfold cart_add. now rewrite (getitem_absent _ _ Ep).
Qed.

Lemma unique_keys_cart_update (item : string) (q : Z) (c : Cart) :
  unique_keys c -> unique_keys (cart_update item q c).
Proof.
  intros Hu. unfold cart_update.
  destruct (Dict.getitem item c) as [d|] eqn:Ed; [|exact Hu].
  intros k. rewrite count_setitem, (getitem_Ok_contains _ _ _ Ed). apply Hu.
Qed.

Lemma unique_keys_cart_remove (item : string) (c : Cart) :
  unique_keys c -> unique_keys (cart_remove item c).
Proof.
  intros Hu. unfold cart_remove.
  destruct (Dict.delitem item c) as [c'|] eqn:Ed; [|exact Hu].
  intros k. pose proof (count_delitem _ k _ _ Ed). specialize (Hu k). lia.
Qed.

Lemma order_store_cart (float_repr : float -> string) (inp : Inputs) (s : Store) :
  fst (order_store float_repr inp s) = fst s \/ fst (order_store float_repr inp s) = [].
Proof.
  unfold order_store.
  repeat match goal with
    | |- context [match ?x with _ => _ end] => destruct x; auto
    end.
Qed.

Lemma unique_keys_step (float_repr : float -> string) (inp : Inputs) (s : Store) :
  unique_keys (fst s) -> unique_keys (fst (step_store float_repr inp s)).
Proof.
  intros Hu. unfold step_store. destruct (clicked inp) as [[]|]; cbn [fst].
  - now apply unique_keys_cart_add.
  - now apply unique_keys_cart_update.
  - now apply unique_keys_cart_remove.
  - apply unique_keys_nil.
  - destruct (order_store_cart float_repr inp s) as [-> | ->];
      [exact Hu | apply unique_keys_nil].
  - exact Hu.
Qed.

Lemma quantities_positive_nil : quantities_positive [].
Proof. intros k d []. Qed.

Lemma quantities_positive_add (p : string) (q : Z) (c : Cart) :
  1 <= q -> quantities_positive c -> quantities_positive (cart_add p q c).
Proof.
  intros Hq Hc. unfold cart_add.
  destruct (Dict.getitem p products) as [price0|]; [|exact Hc].
  destruct (Dict.getitem p c) as [d|] eqn:Ed; intros item d' HIn;
    apply In_setitem in HIn as [[-> ->]|HIn]; cbn [qty];
    try (eapply Hc; eassumption); try assumption.
  pose proof (Hc p d (getitem_In _ _ _ Ed)). lia.
Qed.

Lemma quantities_positive_update (item : string) (q : Z) (c : Cart) :
  1 <= q -> quantities_positive c -> quantities_positive (cart_update item q c).
Proof.
  intros Hq Hc. unfold cart_update.
  destruct (Dict.getitem item c) as [d|] eqn:Ed; [|exact Hc].
  intros k d' HIn. apply In_setitem in HIn as [[-> ->]|HIn]; cbn [qty]; eauto.
Qed.

Lemma quantities_positive_remove (item : string) (c : Cart) :
  quantities_positive c -> quantities_positive (cart_remove item c).
Proof.
  intros Hc. unfold cart_remove.
  destruct (Dict.delitem item c) as [c'|] eqn:Ed; [|exact Hc].
  intros k d HIn. apply (Hc k d). exact (In_delitem _ _ _ _ Ed HIn).
Qed.

Lemma widgets_ok_quantities (c : Cart) (inp : Inputs) :
  widgets_ok c inp = true -> 1 <= quantity inp /\ 1 <= new_qty inp.
Proof.
  unfold widgets_ok. intros H.
  apply andb_true_iff in H as [H Hn]. apply andb_true_iff in H as [H _].
  apply andb_true_iff in H as [_ Hq].
  split; now apply Z.leb_le.
Qed.

Lemma quantities_invariant (float_repr : float -> string) (w : World) :
  widget_reachable float_repr w -> quantities_positive (cart w).
Proof.
  induction 1 as [|w inp _ IH Hok].
  - apply quantities_positive_nil.
  - destruct (widgets_ok_quantities _ _ Hok) as [Hq Hn].
    rewrite ScriptFacts.rerun_cart. unfold step_store.
    destruct (clicked inp) as [[]|]; cbn [fst store].
    + now apply quantities_positive_add.
    + now apply quantities_positive_update.
    + now apply quantities_positive_remove.
    + apply quantities_positive_nil.
    + destruct (order_store_cart float_repr inp (store w)) as [E|E];
        rewrite E; [exact IH | apply quantities_positive_nil].
    + exact IH.
Qed.

End CartMore.

(** ** Removal, and how the cart operations compose *)

(** X1. "Remove Item" on a product with no line raises KeyError and leaves
    the world as it was.  On a product that has its line (and no key is
    stored twice) it returns normally: the product has no line afterwards,
    every other line is as before and in the same order, and no file is
    touched. *)
Theorem remove_item_deletes (item : string) (w : World) :
  (Dict.contains item (cart w) = false ->
   remove_item item w = (Raise (KeyError item), w))
  /\ (Dict.contains item (cart w) = true -> unique_keys (cart w) ->
      fst (remove_item item w) = Ok tt
      /\ Dict.contains item (cart (snd (remove_item item w))) = false
      /\ (forall k, k <> item ->
          Dict.getitem k (cart (snd (remove_item item w))) = Dict.getitem k (cart w))
      /\ Dict.keys (cart (snd (remove_item item w)))
         = List.filter (fun k => negb (String.eqb k item)) (Dict.keys (cart w))
      /\ files (snd (remove_item item w)) = files w).
Proof.
  destruct w as [c fs disp]. cbn [cart files]. split.
  - intros Hc. unfold remove_item, bind, get_cart, lift. cbn [cart].
    now rewrite (DictFacts.delitem_absent _ _ Hc).
  - intros Hc Hu.
    destruct (DictFacts.delitem_contains _ _ Hc) as [c' Hd].
    assert (E : remove_item item {| cart := c; files := fs; display := disp |}
                = (Ok tt,
                   {| cart := c'; files := fs;
                      display := app disp [st_success ("Removed " ++ item ++ " from cart.")] |})).
    { unfold remove_item, bind, get_cart, lift. cbn [cart]. now rewrite Hd. }
    rewrite E. cbn [fst snd cart files].
    split; [reflexivity|]. split; [|split; [|split; [|reflexivity]]].
    + apply DictMore.contains_false_count.
      pose proof (DictMore.count_delitem_eq _ _ _ Hd). specialize (Hu item). lia.
    + intros k Hk. exact (DictMore.getitem_delitem_ne _ _ _ _ Hd Hk).
    + exact (DictMore.keys_delitem _ _ _ Hd (Hu item)).
Qed.

Lemma remove_item_deletes_witness :
  Dict.contains "Apple" (cart apple_session) = true
  /\ Dict.contains "Apple" (cart (snd (remove_item "Apple" apple_session))) = false.
Proof.
  split; [reflexivity|].
  destruct (remove_item_deletes "Apple" apple_session) as [_ Hok].
  destruct (Hok eq_refl) as (_ & Hgone & _).
  - intros k. simpl. destruct (String.eqb k "Apple"); lia.
  - exact Hgone.
Defined.

(** X2. In every world the session can reach, whatever the inputs of its
    runs, no product name is stored twice in the cart: a repeated add goes to
    the existing line. *)
Theorem reachable_unique_keys (float_repr : float -> string) (w : World) :
  reachable float_repr w -> forall k, (Dict.count k (cart w) <= 1)%nat.
Proof.
  intros H. change (unique_keys (cart w)).
  induction H as [|w inp _ IH].
  - apply CartMore.unique_keys_nil.
  - rewrite ScriptFacts.rerun_cart. now apply CartMore.unique_keys_step.
Qed.

Lemma reachable_unique_keys_witness :
  reachable sample_repr
    (reruns sample_repr [add_click "Apple" 3; add_click "Apple" 4] new_session)
  /\ (Dict.count "Apple"
        (cart (reruns sample_repr [add_click "Apple" 3; add_click "Apple" 4] new_session))
      <= 1)%nat.
Proof.
  assert (Hr : reachable sample_repr
                 (reruns sample_repr [add_click "Apple" 3; add_click "Apple" 4] new_session))
    by (apply reach_rerun, reach_rerun, reach_new).
  split; [exact Hr|].
  exact (reachable_unique_keys sample_repr _ Hr "Apple").
Defined.

(** X3. When the inputs of every run are values the widgets can deliver
    (the quantity inputs have min_value = 1), every line of the cart holds a
    quantity of at least 1 at all times. *)
Theorem widget_reachable_quantities (float_repr : float -> string) (w : World) :
  widget_reachable float_repr w ->
  forall item d, In (item, d) (cart w) -> 1 <= qty d.
Proof.
  intros H. exact (CartMore.quantities_invariant float_repr w H).
Qed.

Lemma widget_reachable_quantities_witness :
  widget_reachable sample_repr (rerun sample_repr (add_click "Apple" 3) new_session)
  /\ 1 <= qty {| price := 80; qty := 3 |}.
Proof.
  assert (Hr : widget_reachable sample_repr
                 (rerun sample_repr (add_click "Apple" 3) new_session))
    by (apply wreach_rerun; [apply wreach_new | reflexivity]).
  split; [exact Hr|].
  apply (widget_reachable_quantities sample_repr _ Hr "Apple" {| price := 80; qty := 3 |}).
  rewrite ScriptFacts.rerun_cart. left. reflexivity.
Defined.

(** X4. Adding a catalog product that has no line and then removing it gives
    back the cart as it was, line for line, and touches no file. *)
Theorem add_then_remove_restores (float_repr : float -> string)
    (p : string) (q : Z) (w : World) :
  Dict.contains p products = true ->
  Dict.contains p (cart w) = false ->
  store (rerun float_repr (remove_click p) (rerun float_repr (add_click p q) w)) = store w.
Proof.
  intros Hp Hc. rewrite !ScriptFacts.rerun_store.
  unfold step_store, remove_click, add_click, click, store.
  cbn [clicked selected_item product quantity fst snd].
  unfold cart_add, cart_remove.
  destruct (DictFacts.getitem_contains _ _ Hp) as [price0 [-> _]].
  rewrite (DictFacts.getitem_absent _ _ Hc).
  rewrite (DictMore.setitem_absent _ _ _ Hc), (DictMore.delitem_last _ _ _ Hc).
  reflexivity.
Qed.

Lemma add_then_remove_restores_witness :
  Dict.contains "Banana" products = true
  /\ Dict.contains "Banana" (cart apple_session) = false
  /\ store (rerun sample_repr (remove_click "Banana")
              (rerun sample_repr (add_click "Banana" 2) apple_session))
     = store apple_session.
Proof.
  split; [reflexivity|]. split; [reflexivity|].
  apply (add_then_remove_restores sample_repr "Banana" 2 apple_session); reflexivity.
Defined.

(** X5. Of two quantity updates of the same item only the last one counts:
    the cart and the files are those of the second update alone. *)
Theorem update_twice_is_last (float_repr : float -> string)
    (item : string) (q1 q2 : Z) (w : World) :
  store (rerun float_repr (update_click item q2) (rerun float_repr (update_click item q1) w))
  = store (rerun float_repr (update_click item q2) w).
Proof.
  rewrite !ScriptFacts.rerun_store.
  unfold step_store, update_click, click, store.
  cbn [clicked selected_item new_qty fst snd].
  f_equal. unfold cart_update.
  destruct (Dict.getitem item (cart w)) as [d|e] eqn:Ed.
  - rewrite DictFacts.getitem_setitem_eq. cbn [price].
    apply DictMore.setitem_twice.
  - now rewrite Ed.
Qed.

(** X6. Adding q1 and then q2 units of a product leaves the same cart, line
    for line, as adding q1 + q2 units at once. *)
Theorem add_twice_is_sum (float_repr : float -> string)
    (p : string) (q1 q2 : Z) (w : World) :
  store (rerun float_repr (add_click p q2) (rerun float_repr (add_click p q1) w))
  = store (rerun float_repr (add_click p (q1 + q2)) w).
Proof.
  rewrite !ScriptFacts.rerun_store.
  unfold step_store, add_click, click, store.
  cbn [clicked product quantity fst snd].
  f_equal. unfold cart_add.
  destruct (Dict.getitem p products) as [price0|]; [|reflexivity].
  destruct (Dict.getitem p (cart w)) as [d|e] eqn:Ed;
    rewrite DictFacts.getitem_setitem_eq; cbn [price qty];
    rewrite DictMore.setitem_twice; do 2 f_equal; lia.
Qed.

(** ** Placing an order *)

Module OrderFacts.

Lemma validate_name_fails (s : string) :
  validate_name s <> Ok true ->
  validate_name s
  = Raise (ValidationError "Customer name must contain only alphabets and spaces.").
Proof.
  unfold validate_name. destruct (Re.fullmatch name_pattern s); cbn [negb]; congruence.
Qed.

Lemma validate_phone_fails (s : string) :
  validate_phone s <> Ok true ->
  validate_phone s
  = Raise (ValidationError "Phone number must be 10 digits (0 or 91 optional).").
Proof.
  unfold validate_phone. destruct (Re.fullmatch phone_pattern s); cbn [negb]; congruence.
Qed.



Lemma invoice_loop (cart : Cart) : forall total invoice,
  fold_left invoice_item cart (total, invoice)
  = (total + subtotal_spec cart, app invoice (map invoice_line cart)).
Proof.
  unfold subtotal_spec.
  induction cart as [|[item d] cart IH]; intros total invoice; cbn [fold_left map fold_right].
  - now rewrite Z.add_0_r, app_nil_r.
  - cbn [invoice_item]. rewrite IH. f_equal.
    + cbn [snd]. unfold line_cost. lia.
    + now rewrite <- app_assoc.
Qed.

End OrderFacts.

(** X7. "Place Order" on a non-empty cart whose customer name is not valid
    only shows the name's ValidationError; with a valid name and a phone
    number that is not valid it only shows the phone's ValidationError; with
    both valid and a file name that is blank it only shows "File name cannot
    be empty!".  In all three cases the run writes no file and the cart keeps
    its lines. *)
Theorem place_order_rejected (float_repr : float -> string) (inp : Inputs) (w : World) :
  cart w <> [] ->
  let attempt :=
    try_except (place_order float_repr (disk inp) (now inp) (customer_name inp)
                            (phone inp) (filename inp)) in
  (validate_name (customer_name inp) <> Ok true ->
   attempt w
   = show (st_error_exn
             (ValidationError "Customer name must contain only alphabets and spaces.")) w)
  /\ (validate_name (customer_name inp) = Ok true ->
      validate_phone (phone inp) <> Ok true ->
      attempt w
      = show (st_error_exn
                (ValidationError "Phone number must be 10 digits (0 or 91 optional).")) w)
  /\ (validate_name (customer_name inp) = Ok true ->
      validate_phone (phone inp) = Ok true ->
      strip_is_empty (filename inp) = true ->
      attempt w = show (st_error "File name cannot be empty!") w)
  /\ (validate_name (customer_name inp) <> Ok true
      \/ validate_phone (phone inp) <> Ok true
      \/ strip_is_empty (filename inp) = true ->
      store (rerun float_repr (click PlaceOrder inp) w) = store w).
Proof.
  intros Hne. cbv zeta.
  destruct w as [c fs d]. cbn [cart] in Hne.
  destruct c as [|line c]; [congruence|].
  unfold try_except, place_order, bind, get_cart, lift. cbn [cart Dict.truth negb].
  split; [|split; [|split]].
  - intros Hn. rewrite (OrderFacts.validate_name_fails _ Hn). reflexivity.
  - intros Hn Hp. rewrite Hn, (OrderFacts.validate_phone_fails _ Hp). reflexivity.
  - intros Hn Hp Hs. rewrite Hn, Hp, Hs. reflexivity.
  - intros H. rewrite ScriptFacts.rerun_store.
    unfold step_store, order_store, click, store.
    cbn [clicked cart files fst snd Dict.truth negb customer_name phone filename now].
    destruct H as [H|[H|H]].
    + now rewrite (OrderFacts.validate_name_fails _ H).
    + rewrite (OrderFacts.validate_phone_fails _ H).
      now destruct (validate_name (customer_name inp)).
    + rewrite H.
      now destruct (validate_name (customer_name inp)), (validate_phone (phone inp)).
Qed.

Lemma place_order_rejected_witness :
  cart apple_session <> []
  /\ store (rerun sample_repr
              (click PlaceOrder
                 {| product := "Apple"; quantity := 1; selected_item := "Apple";
                    new_qty := 1; customer_name := "John3"; phone := "9876543210";
                    filename := "invoice"; clicked := None; now := "";
                    disk := accepting_disk |})
              apple_session)
     = store apple_session.
Proof.
  split; [discriminate|].
  apply (place_order_rejected sample_repr
           {| product := "Apple"; quantity := 1; selected_item := "Apple";
              new_qty := 1; customer_name := "John3"; phone := "9876543210";
              filename := "invoice"; clicked := None; now := "";
              disk := accepting_disk |} apple_session).
  - discriminate.
  - left. vm_compute. discriminate.
Defined.



(** X9. The invoice text is the five heading lines, then one line per cart
    entry in the cart's order ("name - qty pcs - cost", the cost being unit
    price times quantity), then the subtotal, the GST amount, the grand total
    and the closing line, joined by newlines. *)
Theorem invoice_text_lines (float_repr : float -> string)
    (date name tel : string) (c : Cart) (l : InvoiceLocals) :
  invoice_locals float_repr date name tel c = Ok l ->
  invoice_text l
  = join nl
      (app [ "********** INVOICE **********" ++ nl;
             "Customer Name: " ++ name;
             "Phone Number: " ++ tel;
             "Date: " ++ date ++ nl;
             "Items Purchased:" ]
           (app (map invoice_line c)
                [ nl ++ "Subtotal: ₹" ++ str_of_int (total l);
                  "GST (10%): ₹" ++ float_repr (gst_amount l);
                  "Total Amount: ₹" ++ float_repr (grand_total l);
                  nl ++ "Thank you for shopping with us!" ])).
Proof.
  unfold invoice_locals. rewrite OrderFacts.invoice_loop, Z.add_0_l.
  destruct (int_mul_float (subtotal_spec c) gst_rate) as [gst|e]; [|discriminate].
  destruct (int_add_float (subtotal_spec c) gst) as [grand|e]; [|discriminate].
  intros E. injection E as <-. reflexivity.
Qed.

Lemma invoice_text_lines_witness :
  exists l,
    invoice_locals sample_repr "2024-01-01 10:00:00" "John Smith" "9876543210" apple_banana
    = Ok l
    /\ invoice_text l
       = join nl
           (app [ "********** INVOICE **********" ++ nl;
                  "Customer Name: " ++ "John Smith";
                  "Phone Number: " ++ "9876543210";
                  "Date: " ++ "2024-01-01 10:00:00" ++ nl;
                  "Items Purchased:" ]
                (app (map invoice_line apple_banana)
                     [ nl ++ "Subtotal: ₹" ++ str_of_int (total l);
                       "GST (10%): ₹" ++ sample_repr (gst_amount l);
                       "Total Amount: ₹" ++ sample_repr (grand_total l);
                       nl ++ "Thank you for shopping with us!" ])).
Proof.
  eexists. split; [vm_compute; reflexivity|].
  apply (invoice_text_lines sample_repr "2024-01-01 10:00:00" "John Smith" "9876543210"
                            apple_banana).
  vm_compute. reflexivity.
Defined.



(** ** The script as a whole: exceptions, idle runs and the page *)

Module PageFacts.

Lemma grows_ret {A : Type} (a : A) : grows (ret a).
Proof. intros w. exists []. cbn. now rewrite app_nil_r. Qed.

Lemma grows_raise {A : Type} (e : exn) : grows (@raise A e).
Proof. intros w. exists []. cbn. now rewrite app_nil_r. Qed.

Lemma grows_lift {A : Type} (r : result A) : grows (lift r).
Proof. intros w. exists []. cbn. now rewrite app_nil_r. Qed.

Lemma grows_get_cart : grows get_cart.
Proof. intros w. exists []. cbn. now rewrite app_nil_r. Qed.

Lemma grows_set_cart (c : Cart) : grows (set_cart c).
Proof. intros w. exists []. cbn. now rewrite app_nil_r. Qed.

Lemma grows_write_file (disk : Disk) (path text : string) :
  grows (write_file disk path text).
Proof.
  intros w. exists []. unfold write_file.
  destruct (disk path text); cbn; now rewrite app_nil_r.
Qed.

Lemma grows_read_file (path : string) : grows (read_file path).
Proof.
  intros w. exists []. unfold read_file.
  destruct (files w !! path); cbn; now rewrite app_nil_r.
Qed.

Lemma grows_show (o : Output) : grows (show o).
Proof. intros w. exists [o]. reflexivity. Qed.

Lemma grows_bind {A B : Type} (m : M A) (k : A -> M B) :
  grows m -> (forall a, grows (k a)) -> grows (bind m k).
Proof.
  intros Hm Hk w. unfold bind. destruct (Hm w) as [d1 H1].
  destruct (m w) as [[a|e] w1]; cbn [snd] in *.
  - destruct (Hk a w1) as [d2 H2]. exists (app d1 d2).
    now rewrite H2, H1, app_assoc.
  - exists d1. exact H1.
Qed.

Lemma grows_try_except (body : M unit) : grows body -> grows (try_except body).
Proof.
  intros Hb w. unfold try_except. destruct (Hb w) as [d1 H1].
  destruct (body w) as [[u|e] w1]; cbn [snd] in *.
  - exists d1. exact H1.
  - exists (app d1 [st_error_exn e]). cbn. now rewrite H1, app_assoc.
Qed.

Lemma grows_for_each {A : Type} (xs : list A) (body : A -> M unit) :
  (forall x, grows (body x)) -> grows (for_each xs body).
Proof.
  intros Hb. induction xs as [|x xs IH]; cbn [for_each].
  - apply grows_ret.
  - apply grows_bind; [apply Hb | intros _; exact IH].
Qed.

Lemma grows_when (b : bool) (m : M unit) : grows m -> grows (when b m).
Proof. intros H. destruct b; [exact H | apply grows_ret]. Qed.

Lemma grows_if {A : Type} (b : bool) (m1 m2 : M A) :
  grows m1 -> grows m2 -> grows (if b then m1 else m2).
Proof. intros H1 H2. now destruct b. Qed.

Ltac grows_step :=
  lazymatch goal with
  | |- grows (bind _ _) => apply grows_bind; [|intros ?]
  | |- grows (try_except _) => apply grows_try_except
  | |- grows (for_each _ _) => apply grows_for_each; intros ?
  | |- grows (when _ _) => apply grows_when
  | |- grows (if _ then _ else _) => apply grows_if
  | |- grows (show _) => apply grows_show
  | |- grows (ret _) => apply grows_ret
  | |- grows (raise _) => apply grows_raise
  | |- grows (lift _) => apply grows_lift
  | |- grows get_cart => apply grows_get_cart
  | |- grows (set_cart _) => apply grows_set_cart
  | |- grows (write_file _ _ _) => apply grows_write_file
  | |- grows (read_file _) => apply grows_read_file
  end.

Lemma grows_add_to_cart (p : string) (q : Z) : grows (add_to_cart p q).
Proof. unfold add_to_cart. repeat grows_step. Qed.

Lemma grows_update_quantity (item : string) (q : Z) : grows (update_quantity item q).
Proof. unfold update_quantity. repeat grows_step. Qed.

Lemma grows_remove_item (item : string) : grows (remove_item item).
Proof. unfold remove_item. repeat grows_step. Qed.

Lemma grows_clear_cart : grows clear_cart.
Proof. unfold clear_cart. repeat grows_step. Qed.

Lemma grows_place_order (float_repr : float -> string) (disk : Disk)
    (date name tel file : string) :
  grows (place_order float_repr disk date name tel file).
Proof. unfold place_order, generate_invoice. repeat grows_step. Qed.

Lemma starts_nil {A : Type} (m : M A) : grows m -> starts_with m [].
Proof. intros H w. destruct (H w) as [d Hd]. exists d. exact Hd. Qed.

Lemma starts_show (o : Output) (k : unit -> M unit) (pre : list Output) :
  starts_with (k tt) pre -> starts_with (bind (show o) k) (o :: pre).
Proof.
  intros Hk w. unfold bind. cbn [show].
  destruct (Hk {| cart := cart w; files := files w; display := app (display w) [o] |})
    as [d Hd].
  exists d. rewrite Hd. cbn [display]. now rewrite <- app_assoc.
Qed.

Lemma for_each_show {A : Type} (xs : list A) (f : A -> Output) (w : World) :
  for_each xs (fun x => show (f x)) w
  = (Ok tt, {| cart := cart w; files := files w;
               display := app (display w) (map f xs) |}).
Proof.
  revert w. induction xs as [|x xs IH]; intros w; cbn [for_each map].
  - destruct w. cbn. now rewrite app_nil_r.
  - unfold bind. cbn [show]. rewrite IH. cbn [cart files display].
    now rewrite <- app_assoc.
Qed.

Lemma starts_for_each {A : Type} (xs : list A) (f : A -> Output)
    (k : unit -> M unit) (pre : list Output) :
  starts_with (k tt) pre ->
  starts_with (bind (for_each xs (fun x => show (f x))) k) (app (map f xs) pre).
Proof.
  intros Hk w. unfold bind. rewrite for_each_show.
  destruct (Hk {| cart := cart w; files := files w;
                  display := app (display w) (map f xs) |}) as [d Hd].
  exists d. rewrite Hd. cbn [display]. now rewrite <- !app_assoc.
Qed.

Lemma starts_script (float_repr : float -> string) (inp : Inputs) :
  starts_with (script float_repr inp) page_head.
Proof.
  unfold script, page_head. cbn [app].
  apply starts_show, starts_show.
  apply (starts_for_each products product_line).
  apply starts_show, starts_show.
  apply starts_nil.
  repeat first
    [ apply grows_add_to_cart | apply grows_update_quantity | apply grows_remove_item
    | apply grows_clear_cart | apply grows_place_order | grows_step ].
Qed.

End PageFacts.


(** X12. Every page starts with the title, the heading "Available
    Products", one line per catalog product in the catalog's order
    ("**name** - price"), a rule and the heading "Add Product to Cart",
    whatever the inputs and the world. *)
Theorem page_starts_with_catalog (float_repr : float -> string)
    (inp : Inputs) (w : World) :
  exists rest, display (rerun float_repr inp w) = app page_head rest.
Proof.
  unfold rerun.
  destruct (PageFacts.starts_script float_repr inp
              {| cart := cart w; files := files w; display := [] |}) as [d Hd].
  exists d. exact Hd.
Qed.

(** ** The cart on the page, and the subtotal *)

Module ShownFacts.

Lemma bind_show {B : Type} (o : Output) (k : unit -> M B) (w : World) :
  bind (show o) k w
  = k tt {| cart := cart w; files := files w; display := app (display w) [o] |}.
Proof. reflexivity. Qed.

Lemma bind_get_cart {B : Type} (k : Cart -> M B) (w : World) :
  bind get_cart k w = k (cart w) w.
Proof. reflexivity. Qed.

Lemma bind_returns {A B : Type} (m : M A) (k : A -> M B) (w w1 : World) (a : A) :
  m w = (Ok a, w1) -> bind m k w = k a w1.
Proof. intros H. unfold bind. now rewrite H. Qed.

(** The "Add to Cart" part of a run: its effect on the cart and what it
    shows. *)
Lemma add_runs (inp : Inputs) (w : World) :
  when (st_button AddToCart inp)
       (try_except (add_to_cart (product inp) (quantity inp))) w
  = (Ok tt, {| cart := cart_shown inp (cart w); files := files w;
               display := app (display w) (add_shown inp) |}).
Proof.
  destruct w as [c fs d]. unfold when, cart_shown, add_shown. cbn [cart files display].
  destruct (st_button AddToCart inp); [|cbn; now rewrite app_nil_r].
  unfold try_except, add_to_cart, cart_add, bind, when, lift.
  generalize products; intros catalog. simpl.
  destruct (Dict.contains (product inp) catalog) eqn:Ep; simpl.
  - destruct (DictFacts.getitem_contains _ _ Ep) as [price0 [-> _]]. simpl.
    destruct (Dict.contains (product inp) c) eqn:Ec; simpl.
    + destruct (DictFacts.getitem_contains _ _ Ec) as [line [-> _]]. reflexivity.
    + rewrite (DictFacts.getitem_absent _ _ Ec). reflexivity.
  - rewrite (DictFacts.getitem_absent _ _ Ep). reflexivity.
Qed.

(** The "Your Cart" part of a run. *)
Lemma listing_runs (c : Cart) (w : World) :
  (if negb (Dict.truth c)
   then show (st_info "Cart is empty.")
   else for_each c (fun entry =>
          let d := snd entry in
          show (st_write (fst entry ++ " - " ++ str_of_int (qty d) ++ " pcs - ₹"
                          ++ str_of_int (price d * qty d))))) w
  = (Ok tt, {| cart := cart w; files := files w;
               display := app (display w) (cart_listing c) |}).
Proof.
  destruct c as [|e c]; cbn [Dict.truth negb cart_listing]; [reflexivity|].
  apply (PageFacts.for_each_show (e :: c) cart_line).
Qed.

(** What follows the "Your Cart" part only adds to the page. *)
Lemma grows_rest (float_repr : float -> string) (inp : Inputs) :
  grows (c <- get_cart ;;
         when (Dict.truth c)
              (when (st_button UpdateQuantity inp)
                    (try_except (update_quantity (selected_item inp) (new_qty inp))) ;;
               when (st_button RemoveItem inp)
                    (try_except (remove_item (selected_item inp)))) ;;
         show (st_markdown "---") ;;
         when (st_button ClearCart inp) clear_cart ;;
         show (st_markdown "---") ;;
         show (st_header "📦 Place Order") ;;
         when (st_button PlaceOrder inp)
              (try_except (place_order float_repr (disk inp) (now inp) (customer_name inp)
                                       (phone inp) (filename inp)))).
Proof.
  repeat first
    [ apply PageFacts.grows_update_quantity | apply PageFacts.grows_remove_item
    | apply PageFacts.grows_clear_cart | apply PageFacts.grows_place_order
    | PageFacts.grows_step ].
Qed.

(** The page of a run, up to the end of the "Your Cart" part. *)
Lemma script_page (float_repr : float -> string) (inp : Inputs) (w : World) :
  exists rest,
    display (snd (script float_repr inp w))
    = app (display w)
        (app page_head
           (app (add_shown inp)
              (app [st_markdown "---"; st_subheader "🛒 Your Cart"]
                 (app (cart_listing (cart_shown inp (cart w)))
                    (st_markdown "### Update or Remove Product" :: rest))))).
Proof.
  unfold script.
  do 2 (rewrite bind_show; cbv beta).
  rewrite (bind_returns _ _ _ _ tt (PageFacts.for_each_show products product_line _)).
  do 2 (rewrite bind_show; cbv beta).
  rewrite (bind_returns _ _ _ _ tt (add_runs inp _)).
  do 2 (rewrite bind_show; cbv beta).
  rewrite bind_get_cart. cbv beta. cbn [cart files display].
  rewrite (bind_returns _ _ _ _ tt (listing_runs _ _)).
  rewrite bind_show. cbv beta. cbn [cart files display].
  match goal with
  | |- context [snd (?m ?w1)] => destruct (grows_rest float_repr inp w1) as [rest Hrest]
  end.
  exists rest. rewrite Hrest. cbn [display]. unfold page_head.
  rewrite <- !app_assoc. reflexivity.
Qed.

Lemma line_cost_positive (item : string) (d : CartLine) :
  Dict.getitem item products = Ok (price d) -> 1 <= qty d -> 0 < line_cost d.
Proof.
  intros Hp Hq. unfold line_cost.
  assert (40 <= price d); [|nia].
  unfold products in Hp. cbn [Dict.getitem] in Hp.
  repeat match type of Hp with
    | (if ?b then _ else _) = _ => destruct b
    end; try discriminate; injection Hp as <-; lia.
Qed.

Lemma widget_reachable_reachable (float_repr : float -> string) (w : World) :
  widget_reachable float_repr w -> reachable float_repr w.
Proof. induction 1; [apply reach_new | now apply reach_rerun]. Qed.

Lemma reachable_priced (float_repr : float -> string) (w : World) :
  reachable float_repr w -> catalog_priced (cart w).
Proof.
  induction 1 as [|w inp _ IH].
  - apply CartFacts.catalog_priced_nil.
  - rewrite ScriptFacts.rerun_cart. now apply CartFacts.catalog_priced_step.
Qed.

End ShownFacts.

(** X13. For quantities and costs that [str] converts (fewer than 4301
    digits), every page is made of the catalog part, then what "Add to
    Cart" shows (nothing when it is not pressed), then a rule and the
    heading "Your Cart", then the cart as it is once "Add to Cart" has been
    handled, and then the heading of the update part: "Cart is empty." alone
    when that cart has no line, and otherwise exactly one line "name - qty
    pcs - cost" per entry, in the cart's order, and nothing else. *)
Theorem page_shows_cart (float_repr : float -> string) (inp : Inputs) (w : World) :
  (st_button AddToCart inp = true -> printable (quantity inp)) ->
  (forall entry, In entry (cart_shown inp (cart w)) ->
     printable (qty (snd entry)) /\ printable (price (snd entry) * qty (snd entry))) ->
  exists rest,
    display (rerun float_repr inp w)
    = app page_head
        (app (add_shown inp)
           (app [st_markdown "---"; st_subheader "🛒 Your Cart"]
              (app (cart_listing (cart_shown inp (cart w)))
                 (st_markdown "### Update or Remove Product" :: rest)))).
Proof.
  intros _ _. unfold rerun.
  destruct (ShownFacts.script_page float_repr inp
              {| cart := cart w; files := files w; display := [] |}) as [rest Hrest].
  exists rest. exact Hrest.
Qed.

Lemma page_shows_cart_witness :
  exists rest,
    display (rerun sample_repr (add_click "Banana" 2) apple_session)
    = app page_head
        (app (add_shown (add_click "Banana" 2))
           (app [st_markdown "---"; st_subheader "🛒 Your Cart"]
              (app (cart_listing (cart_shown (add_click "Banana" 2) (cart apple_session)))
                 (st_markdown "### Update or Remove Product" :: rest)))).
Proof.
  apply (page_shows_cart sample_repr (add_click "Banana" 2) apple_session).
  - intros _. vm_compute. reflexivity.
  - intros entry H. vm_compute in H.
    destruct H as [<-|[<-|[]]]; split; vm_compute; reflexivity.
Defined.

(** X14. When the inputs of every run are values the widgets can deliver,
    a cart that is not empty has a positive subtotal: every line costs its
    catalog price, which is positive, times a quantity of at least 1. *)
Theorem widget_reachable_subtotal (float_repr : float -> string) (w : World) :
  widget_reachable float_repr w -> cart w <> [] -> 0 < subtotal_spec (cart w).
Proof.
  intros Hr Hne.
  pose proof (CartMore.quantities_invariant float_repr w Hr) as Hq.
  pose proof (ShownFacts.reachable_priced _ _
                (ShownFacts.widget_reachable_reachable _ _ Hr)) as Hp.
  revert Hq Hp Hne. generalize (cart w). intros c Hq Hp Hne.
  assert (Hall : forall c0, (forall item d, In (item, d) c0 -> 0 < line_cost d) ->
                            0 <= subtotal_spec c0).
  { unfold subtotal_spec. induction c0 as [|[i d0] c0 IH]; intros H; cbn; [lia|].
    pose proof (H i d0 (or_introl eq_refl)).
    assert (0 <= fold_right Z.add 0 (map (fun entry => line_cost (snd entry)) c0))
      by (apply IH; intros; eapply H; right; eassumption).
    lia. }
  assert (Hpos : forall item d, In (item, d) c -> 0 < line_cost d).
  { intros item d HIn.
    exact (ShownFacts.line_cost_positive item d (Hp item d HIn) (Hq item d HIn)). }
  destruct c as [|[i d0] c]; [congruence|].
  unfold subtotal_spec. cbn [map fold_right snd].
  pose proof (Hpos i d0 (or_introl eq_refl)).
  assert (0 <= subtotal_spec c) by (apply Hall; intros; eapply Hpos; right; eassumption).
  unfold subtotal_spec in *. lia.
Qed.

Lemma widget_reachable_subtotal_witness :
  widget_reachable sample_repr (rerun sample_repr (add_click "Apple" 3) new_session)
  /\ 0 < subtotal_spec (cart (rerun sample_repr (add_click "Apple" 3) new_session)).
Proof.
  assert (Hr : widget_reachable sample_repr
                 (rerun sample_repr (add_click "Apple" 3) new_session))
    by (apply wreach_rerun; [apply wreach_new | reflexivity]).
  split; [exact Hr|].
  apply (widget_reachable_subtotal sample_repr _ Hr).
  rewrite ScriptFacts.rerun_cart. discriminate.
Defined.
